(** * CAN frame decoder of [mercury/can.py]: embedding and verified properties

    The development embeds the class [CANDecoder] of [mercury/can.py]:
    the constructor that turns a message into the text produced by
    Python's [bin], the bit cursor ([read_bits], [read_bits_as_int]) and
    the field walk of [_decode_can_message].

    Modelling choices.
    - A Python [str] is a list of characters ([list ascii], code points
      0..255).  A [bytes] message is decoded to [str] on line 48 of the
      source and then takes the [str] branch, so the embedding starts from
      the decoded text.
    - A Python [int] is a [Z]; a value stored in [self.data] is a [pyval]
      ([None], an [int], or a [str]).
    - [self.data] is a dictionary with string keys: a [gmap string pyval].
    - The object state is the record [CANDecoder]; methods are functions in
      a state-and-exception monad whose failures keep the state reached
      when the exception was raised.
    - Calls to [log] have no effect on the results and are left out.
    - The interpreter is CPython 3.11, which refuses to convert between
      text and an integer of more than 4300 decimal digits
      ([int_max_str_digits]); bases that are powers of two are exempt.
    - Messages of other types than [str], [bytes] and [int] are outside the
      model. *)

From Stdlib Require Import ZArith Ascii String.
From stdpp Require Import gmap strings list fin_maps.

Local Open Scope Z_scope.

(** ** Python values, text and exceptions *)

Definition str := list ascii.

(** A literal of the source, as a list of characters. *)
Definition lit (s : string) : str := list_ascii_of_string s.

Inductive pyval :=
  | PNone
  | PInt (z : Z)
  | PStr (s : str).

#[global] Instance pyval_eq_dec : EqDecision pyval.
Proof. solve_decision. Defined.

(** Python's [==] on the values that occur here: values of different types
    are never equal. *)
Definition py_eq (a b : pyval) : bool := bool_decide (a = b).

Inductive SensorType :=
  | TemperatureSensor
  | AccelerationSensor
  | WheelSpeedSensor
  | SuspensionSensor
  | FuelLevelSensor.

#[global] Instance SensorType_eq_dec : EqDecision SensorType.
Proof. solve_decision. Defined.

Inductive exn :=
  | ValueError
  | TypeError
  | KeyError
  | NotImplementedError
  | InvalidBitException (value : pyval) (field_name : string)
  | MessageLengthException (value : Z).

(** The arguments an exception object was constructed with ([e.args]). *)
Definition exn_args (e : exn) : list pyval :=
  match e with
  | ValueError | TypeError | KeyError => []
  | NotImplementedError => []
  | InvalidBitException v f => [v; PStr (lit f)]
  | MessageLengthException n => [PInt n]
  end.

(** ** The built-ins [int(text, base)] and [bin]

    [py_int] follows CPython's [PyLong_FromString]: surrounding white space
    is skipped, one sign is accepted, base 2 accepts the prefix [0b]/[0B]
    (followed by at most one underscore), digits may be separated by single
    underscores, and at least one digit is required.  [None] stands for
    [ValueError].  White space is the ASCII set (tab to carriage return and
    the space) and, among the code points above 127, the next-line and
    no-break space characters.  In a base that is not a power of two the
    conversion is refused when the text has more than
    [int_max_str_digits] digits, leading zeros counted and underscores
    not. *)

(** The default of [sys.int_max_str_digits]. *)
Definition int_max_str_digits : Z := 4300.

(** [(base & (base - 1)) == 0] *)
Definition is_binary_base (base : Z) : bool :=
  Z.land base (base - 1) =? 0.

Definition char_code (c : ascii) : Z := Z.of_N (N_of_ascii c).

Definition is_space (c : ascii) : bool :=
  let n := char_code c in
  ((9 <=? n) && (n <=? 13)) || (n =? 32) || (n =? 133) || (n =? 160).

Definition digit_value (c : ascii) : option Z :=
  let n := char_code c in
  if (48 <=? n) && (n <=? 57) then Some (n - 48)
  else if (97 <=? n) && (n <=? 122) then Some (n - 87)
  else if (65 <=? n) && (n <=? 90) then Some (n - 55)
  else None.

Definition is_underscore (c : ascii) : bool := char_code c =? 95.

(** The digit scan: stops at the first character that is neither a digit
    below [base] nor an underscore; two underscores in a row or a trailing
    underscore are errors. *)
Fixpoint scan_digits (base : Z) (prev_us : bool) (acc : Z) (s : str)
  : option (Z * str) :=
  match s with
  | [] => if prev_us then None else Some (acc, [])
  | c :: s' =>
      if is_underscore c then
        if prev_us then None else scan_digits base true acc s'
      else
        match digit_value c with
        | Some d =>
            if d <? base then scan_digits base false (acc * base + d) s'
            else if prev_us then None else Some (acc, s)
        | None => if prev_us then None else Some (acc, s)
        end
  end.

Fixpoint skip_spaces (s : str) : str :=
  match s with
  | c :: s' => if is_space c then skip_spaces s' else s
  | [] => []
  end.

Definition read_sign (s : str) : bool * str :=
  match s with
  | c :: s' =>
      if char_code c =? 43 then (false, s')
      else if char_code c =? 45 then (true, s')
      else (false, s)
  | [] => (false, [])
  end.

Definition skip_prefix (base : Z) (s : str) : str :=
  match s with
  | z :: b :: s' =>
      if (base =? 2) && (char_code z =? 48)
         && ((char_code b =? 98) || (char_code b =? 66))
      then match s' with
           | u :: s'' => if is_underscore u then s'' else s'
           | [] => s'
           end
      else s
  | _ => s
  end.

(** The digits the scan has taken from [s], which it left at [rest]. *)
Definition digits_scanned (s rest : str) : Z :=
  Z.of_nat
    (length
       (List.filter (fun c => negb (is_underscore c))
          (take (length s - length rest) s))).

Definition exceeds_digit_limit (base : Z) (s rest : str) : bool :=
  negb (is_binary_base base) && (int_max_str_digits <? digits_scanned s rest).

Definition py_int (base : Z) (s : str) : option Z :=
  let '(neg, s1) := read_sign (skip_spaces s) in
  let s2 := skip_prefix base s1 in
  match s2 with
  | [] => None
  | c :: _ =>
      if is_underscore c then None
      else
        match scan_digits base false 0 s2 with
        | None => None
        | Some (v, rest) =>
            if exceeds_digit_limit base s2 rest then None
            else if (length rest =? length s2)%nat then None
            else
              match skip_spaces rest with
              | [] => Some (if neg then - v else v)
              | _ :: _ => None
              end
        end
  end.

(** The binary digits of a positive number, most significant first. *)
Fixpoint pos_bits (p : positive) : str :=
  match p with
  | xH => lit "1"
  | xO p' => pos_bits p' ++ lit "0"
  | xI p' => pos_bits p' ++ lit "1"
  end.

Definition bin (z : Z) : str :=
  match z with
  | Z0 => lit "0b0"
  | Zpos p => lit "0b" ++ pos_bits p
  | Zneg p => lit "-0b" ++ pos_bits p
  end.

(** Python's slices [s[0:n]] and [s[n:]]; a negative [n] counts from the
    end of [s]. *)
Definition slice_to (n : Z) (s : str) : str :=
  if 0 <=? n then take (Z.to_nat n) s
  else take (length s - Z.to_nat (- n)) s.

Definition slice_from (n : Z) (s : str) : str :=
  if 0 <=? n then drop (Z.to_nat n) s
  else drop (length s - Z.to_nat (- n)) s.

(** ** The decoder object and its monad *)

(** The attributes of a [CANDecoder] object. *)
Record CANDecoder := mkCANDecoder {
  message : str;
  data : gmap string pyval
}.

(** The outcome of a method call: a value or an exception, each with the
    object state reached. *)
Inductive result (A : Type) :=
  | Ok (a : A) (st : CANDecoder)
  | Raise (e : exn) (st : CANDecoder).
Arguments Ok {A} a st.
Arguments Raise {A} e st.

Definition M (A : Type) : Type := CANDecoder -> result A.

#[global] Instance M_ret : MRet M := fun A a st => Ok a st.
#[global] Instance M_bind : MBind M := fun A B f m st =>
  match m st with
  | Ok a st' => f a st'
  | Raise e st' => Raise e st'
  end.

Definition raise {A} (e : exn) : M A := fun st => Raise e st.

Definition get_message : M str := fun st => Ok (message st) st.

Definition set_message (s : str) : M unit :=
  fun st => Ok tt {| message := s; data := data st |}.

Definition get_data : M (gmap string pyval) := fun st => Ok (data st) st.

(** [self.data[key] = v] *)
Definition set_item (key : string) (v : pyval) : M unit :=
  fun st => Ok tt {| message := message st; data := <[key := v]> (data st) |}.

(** [self.data[key]]; a missing key raises [KeyError]. *)
Definition get_item (key : string) : M pyval :=
  fun st =>
    match data st !! key with
    | Some v => Ok v st
    | None => Raise KeyError st
    end.

(** ** The sensor table (lines 10-16) *)

Definition ID_TO_SENSOR_MAP : gmap Z SensorType :=
  {[ 1 := TemperatureSensor;
     2 := AccelerationSensor;
     3 := WheelSpeedSensor;
     4 := SuspensionSensor;
     5 := FuelLevelSensor ]}.

(** [ID_TO_SENSOR_MAP[v]]; [None] stands for [KeyError]. *)
Definition sensor_lookup (v : pyval) : option SensorType :=
  match v with
  | PInt z => ID_TO_SENSOR_MAP !! z
  | _ => None
  end.

(** ** The constructor (lines 40-59) *)

Inductive raw_message :=
  | MsgStr (s : str)
  | MsgInt (z : Z).

(** Lines 46-55: the message becomes the text [bin] gives for its value;
    text is read in base 2 first and in base 10 when that fails. *)
Definition to_binary_text (m : raw_message) : exn + str :=
  match m with
  | MsgStr s =>
      match py_int 2 s with
      | Some z => inr (bin z)
      | None =>
          match py_int 10 s with
          | Some z => inr (bin z)
          | None => inl ValueError
          end
      end
  | MsgInt z => inr (bin z)
  end.

(** Line 44 formats the message for the log before anything else, whether
    or not the text is logged; for an integer this is a conversion to
    decimal text, refused with [ValueError] when the integer has more than
    [int_max_str_digits] digits. *)
Definition debug_format (m : raw_message) : exn + unit :=
  match m with
  | MsgStr _ => inr tt
  | MsgInt z =>
      if 10 ^ int_max_str_digits <=? Z.abs z then inl ValueError else inr tt
  end.

(** Lines 46-59: lines 57-59 compare [len(self.message)], the length of
    the text that [bin] returned, with 130. *)
Definition init_body (m : raw_message) : exn + CANDecoder :=
  match to_binary_text m with
  | inl e => inl e
  | inr t =>
      if 130 <? Z.of_nat (length t)
      then inl (MessageLengthException (Z.of_nat (length t)))
      else inr {| message := t; data := ∅ |}
  end.

Definition init (m : raw_message) : exn + CANDecoder :=
  match debug_format m with
  | inl e => inl e
  | inr _ => init_body m
  end.

(** ** The bit cursor (lines 61-75) *)

Definition read_bits (num_bits : Z) : M str :=
  fun st =>
    Ok (slice_to num_bits (message st))
       {| message := slice_from num_bits (message st); data := data st |}.

Definition read_bits_as_int (num_bits : Z) : M pyval :=
  if 0 <? num_bits then
    bits ← read_bits num_bits;
    match py_int 2 bits with
    | Some z => mret (PInt z)
    | None => raise ValueError
    end
  else mret PNone.

(** ** The field walk (lines 77-156) *)

(** [int(v)] on a stored value. *)
Definition py_to_int (v : pyval) : M Z :=
  match v with
  | PInt z => mret z
  | PNone => raise TypeError
  | PStr s =>
      match py_int 10 s with
      | Some z => mret z
      | None => raise ValueError
      end
  end.

(** [v * 8] used as a bit count: only an [int] gives a count; for any other
    value either the product or the comparison [num_bits > 0] raises
    [TypeError]. *)
Definition py_times (v : pyval) (k : Z) : M Z :=
  match v with
  | PInt z => mret (z * k)
  | _ => raise TypeError
  end.

(** [self.data[key] = self.read_bits_as_int(n)] *)
Definition read_field (key : string) (num_bits : Z) : M unit :=
  v ← read_bits_as_int num_bits;
  set_item key v.

(** [if self.data[key] == "0": raise InvalidBitException(...)] *)
Definition check_fixed_bit (key field_name : string) : M unit :=
  v ← get_item key;
  if py_eq v (PStr (lit "0"))
  then raise (InvalidBitException v field_name)
  else mret tt.

Definition _decode_can_message : M (SensorType * gmap string pyval) :=
  m ← get_message;
  set_message (slice_from 2 m);;
  read_field "sof" 1;;
  check_fixed_bit "sof" "Start of Frame";;
  read_field "can_id" 11;;
  can_id ← get_item "can_id";
  sensor_type ←
    match sensor_lookup can_id with
    | Some s => mret s
    | None => raise NotImplementedError
    end;
  read_field "rtr" 1;;
  read_field "ide" 1;;
  ide ← get_item "ide";
  ide_int ← py_to_int ide;
  (if ide_int =? 1 then
     rtr ← get_item "rtr";
     set_item "srr" rtr;;
     read_field "extended_can_id" 18;;
     read_field "rtr" 1
   else
     set_item "srr" PNone;;
     set_item "extended_can_id" PNone);;
  read_field "r0" 1;;
  read_field "data_length_code" 4;;
  dlc ← get_item "data_length_code";
  num_bits ← py_times dlc 8;
  read_field "data" num_bits;;
  read_field "crc_segment" 15;;
  read_field "crc_delimiter" 1;;
  check_fixed_bit "crc_delimiter" "CRC Delimiter";;
  read_field "ack_bit" 1;;
  read_field "ack_delimiter" 1;;
  check_fixed_bit "ack_delimiter" "ACK Delimiter";;
  read_field "end_of_frame" 7;;
  read_field "interframe_space" 3;;
  d ← get_data;
  mret (sensor_type, d).

Definition decode_can_message_full_dict : M (SensorType * gmap string pyval) :=
  _decode_can_message.

(** Lines 77-82: a dictionary is true when it is not empty. *)
Definition decode_can_message : M (option SensorType * pyval) :=
  '(sensor_type, d) ← _decode_can_message;
  if bool_decide (d = ∅) then mret (None, PNone)
  else
    match d !! "data" with
    | Some v => mret (Some sensor_type, v)
    | None => raise KeyError
    end.

(** Constructing a decoder for a message and calling one method on it. *)
Definition run {A} (f : M A) (m : raw_message) : exn + A :=
  match init m with
  | inl e => inl e
  | inr st =>
      match f st with
      | Ok a _ => inr a
      | Raise e _ => inl e
      end
  end.

Definition decode (m : raw_message) : exn + (option SensorType * pyval) :=
  run decode_can_message m.

Definition decode_full (m : raw_message)
  : exn + (SensorType * gmap string pyval) :=
  run decode_can_message_full_dict m.

(** ** Concrete messages *)

(** The scenario of the specification, field by field: SOF, arbitration
    id, RTR, IDE, reserved bit, DLC, one data byte, CRC, CRC delimiter,
    ACK slot, ACK delimiter, EOF, IFS. *)
Definition scenario_temperature : str :=
  lit "0" ++ lit "00000000001" ++ lit "0" ++ lit "0" ++ lit "0"
  ++ lit "0001" ++ lit "00000000" ++ lit "000000000000000"
  ++ lit "1" ++ lit "0" ++ lit "1" ++ lit "1111111" ++ lit "111".


(** A 47-bit standard frame with arbitration id 1 and a data length code
    of 0, starting with a 1 bit. *)
Definition frame_dlc0 : str :=
  lit "1" ++ lit "00000000001" ++ lit "0" ++ lit "0" ++ lit "0"
  ++ lit "0000" ++ lit "000000000000000"
  ++ lit "1" ++ lit "0" ++ lit "1" ++ lit "1111111" ++ lit "111".

(** Standard frames with one data byte that start with a 1 bit; the
    arguments are the arbitration id bits and the CRC delimiter and ACK
    delimiter bits. *)
Definition frame_with (id crc_del ack_del : str) : str :=
  lit "1" ++ id ++ lit "0" ++ lit "0" ++ lit "0"
  ++ lit "0001" ++ lit "00000000" ++ lit "000000000000000"
  ++ crc_del ++ lit "0" ++ ack_del ++ lit "1111111" ++ lit "111".

(** ** Binary digit strings and the hand-made layout of a frame *)

Definition is_bit (c : ascii) : Prop := c = "0"%char \/ c = "1"%char.

Definition bit_value (c : ascii) : Z := if char_code c =? 49 then 1 else 0.

(** The number a string of binary digits denotes. *)
Definition bin_value (s : str) : Z :=
  fold_left (fun acc c => 2 * acc + bit_value c) s 0.

(** [s] without its leading zeros, and ["0"] when nothing is left: the
    shortest binary numeral with the value of [s]. *)
Fixpoint strip_zeros (s : str) : str :=
  match s with
  | c :: s' => if char_code c =? 48 then strip_zeros s' else s
  | [] => []
  end.

Definition minimal_bits (s : str) : str :=
  match strip_zeros s with
  | [] => lit "0"
  | t => t
  end.

(** [z] written on exactly [w] binary digits, most significant first. *)
Fixpoint to_bits (w : nat) (z : Z) : str :=
  match w with
  | O => []
  | S w' => to_bits w' (z / 2) ++ [if Z.odd z then "1"%char else "0"%char]
  end.

(** The field table of the frame format.  [extension] holds the
    substitute remote request bit and the 18-bit identifier extension of
    an extended frame; the identifier extension flag is 1 exactly when
    they are present. *)
Record Frame := mkFrame {
  start_of_frame : Z;
  arbitration_id : Z;
  remote_transmission_request : Z;
  extension : option (Z * Z);
  reserved_bit : Z;
  data_length_code : Z;
  data_field : Z;
  crc : Z;
  crc_delimiter : Z;
  ack_slot : Z;
  ack_delimiter : Z;
  end_of_frame : Z;
  interframe_space : Z
}.

Definition identifier_extension (f : Frame) : Z :=
  match extension f with
  | Some _ => 1
  | None => 0
  end.

(** The bits of a frame in wire order.  In an extended frame the bit
    before the identifier extension flag is the substitute remote request
    and the remote transmission request follows the 18-bit extension. *)
Definition layout (f : Frame) : str :=
  to_bits 1 (start_of_frame f)
  ++ to_bits 11 (arbitration_id f)
  ++ match extension f with
     | None =>
         to_bits 1 (remote_transmission_request f) ++ to_bits 1 0
     | Some (srr, ext) =>
         to_bits 1 srr ++ to_bits 1 1 ++ to_bits 18 ext
         ++ to_bits 1 (remote_transmission_request f)
     end
  ++ to_bits 1 (reserved_bit f)
  ++ to_bits 4 (data_length_code f)
  ++ to_bits (8 * Z.to_nat (data_length_code f)) (data_field f)
  ++ to_bits 15 (crc f)
  ++ to_bits 1 (crc_delimiter f)
  ++ to_bits 1 (ack_slot f)
  ++ to_bits 1 (ack_delimiter f)
  ++ to_bits 7 (end_of_frame f)
  ++ to_bits 3 (interframe_space f).

Definition in_width (w : Z) (z : Z) : Prop := 0 <= z < 2 ^ w.

(** Every field value fits the width of its field. *)
Definition fields_in_range (f : Frame) : Prop :=
  in_width 1 (start_of_frame f)
  /\ in_width 11 (arbitration_id f)
  /\ in_width 1 (remote_transmission_request f)
  /\ match extension f with
     | None => True
     | Some (srr, ext) => in_width 1 srr /\ in_width 18 ext
     end
  /\ in_width 1 (reserved_bit f)
  /\ in_width 4 (data_length_code f)
  /\ in_width (8 * data_length_code f) (data_field f)
  /\ in_width 15 (crc f)
  /\ in_width 1 (crc_delimiter f)
  /\ in_width 1 (ack_slot f)
  /\ in_width 1 (ack_delimiter f)
  /\ in_width 7 (end_of_frame f)
  /\ in_width 3 (interframe_space f).

(** The dictionary that holds the field values of a frame under the keys
    of the decoder. *)
Definition frame_dict (f : Frame) : gmap string pyval :=
  list_to_map
    [ ("sof"%string, PInt (start_of_frame f));
      ("can_id"%string, PInt (arbitration_id f));
      ("rtr"%string, PInt (remote_transmission_request f));
      ("ide"%string, PInt (identifier_extension f));
      ("srr"%string,
        match extension f with Some (srr, _) => PInt srr | None => PNone end);
      ("extended_can_id"%string,
        match extension f with Some (_, ext) => PInt ext | None => PNone end);
      ("r0"%string, PInt (reserved_bit f));
      ("data_length_code"%string, PInt (data_length_code f));
      ("data"%string, PInt (data_field f));
      ("crc_segment"%string, PInt (crc f));
      ("crc_delimiter"%string, PInt (crc_delimiter f));
      ("ack_bit"%string, PInt (ack_slot f));
      ("ack_delimiter"%string, PInt (ack_delimiter f));
      ("end_of_frame"%string, PInt (end_of_frame f));
      ("interframe_space"%string, PInt (interframe_space f)) ].

(** A standard frame of 167 bits: arbitration id 1 and fifteen data
    bytes. *)
Definition frame_dlc15 : Frame :=
  {| start_of_frame := 0; arbitration_id := 1;
     remote_transmission_request := 0; extension := None;
     reserved_bit := 0; data_length_code := 15; data_field := 1;
     crc := 0; crc_delimiter := 1; ack_slot := 0; ack_delimiter := 1;
     end_of_frame := 127; interframe_space := 7 |}.

(** An extended frame of 98 bits that starts with a 1 bit. *)
Definition frame_extended : Frame :=
  {| start_of_frame := 1; arbitration_id := 3;
     remote_transmission_request := 0; extension := Some (1, 77);
     reserved_bit := 0; data_length_code := 4; data_field := 3054;
     crc := 21845; crc_delimiter := 1; ack_slot := 0; ack_delimiter := 1;
     end_of_frame := 127; interframe_space := 7 |}.

(** An extended frame of exactly 130 bits that starts with a 1 bit:
    eight data bytes. *)
Definition frame_130 : Frame :=
  {| start_of_frame := 1; arbitration_id := 2;
     remote_transmission_request := 0; extension := Some (0, 5);
     reserved_bit := 0; data_length_code := 8; data_field := 1;
     crc := 0; crc_delimiter := 1; ack_slot := 0; ack_delimiter := 1;
     end_of_frame := 127; interframe_space := 7 |}.

(** A frame whose start of frame bit is 1 and whose CRC delimiter and ACK
    delimiter are both 0. *)
Definition frame_bad_fixed_bits : Frame :=
  {| start_of_frame := 1; arbitration_id := 1;
     remote_transmission_request := 0; extension := None;
     reserved_bit := 0; data_length_code := 1; data_field := 0;
     crc := 0; crc_delimiter := 0; ack_slot := 0; ack_delimiter := 0;
     end_of_frame := 127; interframe_space := 7 |}.

(** A frame with the arbitration id 2047, which the sensor table does not
    have. *)
Definition frame_unknown_id : str :=
  frame_with (lit "11111111111") (lit "1") (lit "1").




(** A string of 14286 binary digits, a 1 and 14285 zeros: the least power
    of two with more than 4300 decimal digits. *)
Definition digit_limit_bits : str :=
  "1"%char :: replicate (Z.to_nat 14285) "0"%char.

(** ** Successive reads and weakest preconditions *)

(** The results of [read_bits] called with each count of [ns] in turn. *)
Fixpoint read_many (ns : list Z) : M (list str) :=
  match ns with
  | [] => mret []
  | n :: ns' =>
      b ← read_bits n;
      bs ← read_many ns';
      mret (b :: bs)
  end.

(** [wp m Q E st]: run from [st], [m] returns a value and a state that
    satisfy [Q], or raises an exception that satisfies [E] with the state
    it reached. *)
Definition wp {A} (m : M A) (Q : A -> CANDecoder -> Prop)
    (E : exn -> CANDecoder -> Prop) (st : CANDecoder) : Prop :=
  match m st with
  | Ok a st' => Q a st'
  | Raise e st' => E e st'
  end.

(** ** Further notions used by the properties *)

(** The program [read_bits(a)] followed by [read_bits(b)], returning the
    two results end to end. *)
Definition read_twice (a b : Z) : M str :=
  x ← read_bits a;
  y ← read_bits b;
  mret (x ++ y).

Definition is_decimal_digit (c : ascii) : Prop := 48 <= char_code c <= 57.

(** The number a string of decimal digits denotes. *)
Definition dec_value (s : str) : Z :=
  fold_left (fun acc c => acc * 10 + (char_code c - 48)) s 0.

(** The keys of the dictionary a successful field walk fills. *)
Definition frame_keys : gset string :=
  list_to_set
    [ "sof"; "can_id"; "rtr"; "ide"; "srr"; "extended_can_id"; "r0";
      "data_length_code"; "data"; "crc_segment"; "crc_delimiter"; "ack_bit";
      "ack_delimiter"; "end_of_frame"; "interframe_space" ]%string.

(** The dictionary [d] holds under [key] an integer that fits [w] bits. *)
Definition field_in (d : gmap string pyval) (key : string) (w : Z) : Prop :=
  exists v, d !! key = Some (PInt v) /\ 0 <= v < 2 ^ w.

(** The bits of a frame before its interframe space. *)
Definition layout_head (f : Frame) : str :=
  to_bits 1 (start_of_frame f)
  ++ to_bits 11 (arbitration_id f)
  ++ match extension f with
     | None =>
         to_bits 1 (remote_transmission_request f) ++ to_bits 1 0
     | Some (srr, ext) =>
         to_bits 1 srr ++ to_bits 1 1 ++ to_bits 18 ext
         ++ to_bits 1 (remote_transmission_request f)
     end
  ++ to_bits 1 (reserved_bit f)
  ++ to_bits 4 (data_length_code f)
  ++ to_bits (8 * Z.to_nat (data_length_code f)) (data_field f)
  ++ to_bits 15 (crc f)
  ++ to_bits 1 (crc_delimiter f)
  ++ to_bits 1 (ack_slot f)
  ++ to_bits 1 (ack_delimiter f)
  ++ to_bits 7 (end_of_frame f).

(** * Properties *)

(** ** Examples of the built-ins *)

Example py_int_bin : py_int 2 (lit "101") = Some 5.
Proof. reflexivity. Qed.

Example py_int_prefixed : py_int 2 (lit " -0b1_01 ") = Some (-5).
Proof. reflexivity. Qed.

Example py_int_empty : py_int 2 [] = None.
Proof. reflexivity. Qed.

Example py_int_decimal_fallback :
  py_int 2 (lit "12") = None /\ py_int 10 (lit "12") = Some 12.
Proof. split; reflexivity. Qed.

Example bin_five : bin 5 = lit "0b101" /\ bin (-5) = lit "-0b101".
Proof. split; reflexivity. Qed.


Example scenario_temperature_length : length scenario_temperature = 55%nat.
Proof. reflexivity. Qed.

(** ** Binary digit strings *)

Lemma is_bit_cases (c : ascii) (P : ascii -> Prop) :
  is_bit c -> P "0"%char -> P "1"%char -> P c.
Proof. intros [-> | ->]; auto. Qed.

Lemma bin_value_acc (s : str) (acc : Z) :
  fold_left (fun a c => 2 * a + bit_value c) s acc
  = acc * 2 ^ Z.of_nat (length s) + bin_value s.
Proof.
  unfold bin_value. revert acc.
  induction s as [| c s IH]; intros acc; simpl fold_left.
  - simpl. lia.
  - rewrite IH, (IH (2 * 0 + bit_value c)).
    rewrite length_cons, Nat2Z.inj_succ, Z.pow_succ_r by lia. ring.
Qed.

Lemma bin_value_app (s t : str) :
  bin_value (s ++ t) = bin_value s * 2 ^ Z.of_nat (length t) + bin_value t.
Proof.
  unfold bin_value at 1. rewrite fold_left_app.
  fold (bin_value s). apply bin_value_acc.
Qed.

Lemma bin_value_snoc (s : str) (c : ascii) :
  bin_value (s ++ [c]) = 2 * bin_value s + bit_value c.
Proof.
  rewrite bin_value_app. change (bin_value [c]) with (2 * 0 + bit_value c).
  change (2 ^ Z.of_nat (length [c])) with 2. lia.
Qed.

Lemma bin_value_nonneg (s : str) : 0 <= bin_value s.
Proof.
  induction s as [| c s IH] using rev_ind; [done |].
  rewrite bin_value_snoc. unfold bit_value. case_match; lia.
Qed.

Lemma bin_value_bound (s : str) : bin_value s < 2 ^ Z.of_nat (length s).
Proof.
  induction s as [| c s IH] using rev_ind; [done |].
  rewrite bin_value_snoc, length_app, Nat2Z.inj_add, Z.pow_add_r by lia.
  change (2 ^ Z.of_nat (length [c])) with 2.
  unfold bit_value. case_match; lia.
Qed.

Lemma bin_value_zeros (k : nat) (s : str) :
  bin_value (replicate k "0"%char ++ s) = bin_value s.
Proof.
  induction k as [| k IH]; [done |].
  simpl replicate. rewrite <- app_comm_cons.
  unfold bin_value in *. simpl fold_left. exact IH.
Qed.

Lemma scan_digits_bits (s : str) (acc : Z) :
  Forall is_bit s ->
  scan_digits 2 false acc s
  = Some (fold_left (fun a c => 2 * a + bit_value c) s acc, []).
Proof.
  intros Hs. revert acc. induction Hs as [| c s Hc _ IH]; intros acc.
  - reflexivity.
  - destruct Hc as [-> | ->]; cbn [scan_digits fold_left].
    + change (is_underscore "0") with false.
      change (digit_value "0") with (Some 0).
      change (bit_value "0") with 0. change (0 <? 2) with true. cbv iota.
      replace (acc * 2 + 0) with (2 * acc + 0) by lia. apply IH.
    + change (is_underscore "1") with false.
      change (digit_value "1") with (Some 1).
      change (bit_value "1") with 1. change (1 <? 2) with true. cbv iota.
      replace (acc * 2 + 1) with (2 * acc + 1) by lia. apply IH.
Qed.

(** On a non-empty string of binary digits [int(s, 2)] is the number the
    digits denote. *)
Lemma py_int_bits (s : str) :
  s <> [] -> Forall is_bit s -> py_int 2 s = Some (bin_value s).
Proof.
  intros Hne Hs. destruct s as [| c s]; [done |].
  pose proof (scan_digits_bits (c :: s) 0 Hs) as Hscan.
  inversion Hs as [| ? ? Hc Hs']; subst.
  unfold py_int.
  assert (Hskip : skip_spaces (c :: s) = c :: s).
  { pattern c. apply (is_bit_cases c); [exact Hc | |]; reflexivity. }
  rewrite Hskip.
  assert (Hsign : read_sign (c :: s) = (false, c :: s)).
  { pattern c. apply (is_bit_cases c); [exact Hc | |]; reflexivity. }
  rewrite Hsign.
  assert (Hpre : skip_prefix 2 (c :: s) = c :: s).
  { destruct s as [| b s]; [reflexivity |].
    inversion Hs' as [| ? ? Hb _]; subst.
    pattern b. apply (is_bit_cases b); [exact Hb | |];
      pattern c; apply (is_bit_cases c); try exact Hc; reflexivity. }
  rewrite Hpre.
  assert (Hus : is_underscore c = false).
  { pattern c. apply (is_bit_cases c); [exact Hc | |]; reflexivity. }
  rewrite Hus, Hscan. reflexivity.
Qed.

Lemma pos_bits_of_leading_one (t : str) :
  Forall is_bit t ->
  exists p, bin_value ("1"%char :: t) = Z.pos p
            /\ pos_bits p = "1"%char :: t.
Proof.
  induction t as [| c t IH] using rev_ind; intros Ht.
  - exists xH. split; reflexivity.
  - apply Forall_app in Ht as [Ht Hc].
    destruct (IH Ht) as (p & Hv & Hp).
    rewrite app_comm_cons, bin_value_snoc, Hv.
    inversion Hc as [| ? ? Hc' _]; subst.
    destruct Hc' as [-> | ->].
    + exists (xO p). split; [reflexivity |]. simpl. by rewrite Hp.
    + exists (xI p). split; [reflexivity |]. simpl. by rewrite Hp.
Qed.

(** [bin] of the value of a numeral that starts with a 1 gives the numeral
    back behind the marker ["0b"]. *)
Lemma bin_leading_one (t : str) :
  Forall is_bit t ->
  bin (bin_value ("1"%char :: t)) = lit "0b" ++ "1"%char :: t.
Proof.
  intros Ht. destruct (pos_bits_of_leading_one t Ht) as (p & -> & Hp).
  simpl. by rewrite Hp.
Qed.

Lemma bin_value_strip_zeros (s : str) :
  Forall is_bit s -> bin_value (strip_zeros s) = bin_value s.
Proof.
  induction 1 as [| c s Hc _ IH]; [done |].
  destruct Hc as [-> | ->]; [| reflexivity].
  simpl strip_zeros. rewrite IH.
  exact (eq_sym (bin_value_zeros 1 s)).
Qed.

Lemma strip_zeros_shape (s : str) :
  Forall is_bit s ->
  strip_zeros s = []
  \/ exists t, strip_zeros s = "1"%char :: t /\ Forall is_bit t.
Proof.
  induction 1 as [| c s Hc Hs IH]; [by left |].
  destruct Hc as [-> | ->]; [exact IH |].
  right. by exists s.
Qed.

(** [bin] of the value of a string of binary digits is the marker ["0b"]
    followed by the string without its leading zeros. *)
Lemma bin_of_bits (s : str) :
  Forall is_bit s -> bin (bin_value s) = lit "0b" ++ minimal_bits s.
Proof.
  intros Hs. rewrite <- (bin_value_strip_zeros s Hs). unfold minimal_bits.
  destruct (strip_zeros_shape s Hs) as [-> | (t & -> & Ht)]; [done |].
  by apply bin_leading_one.
Qed.

(** ** Fixed-width fields *)

Lemma length_to_bits (w : nat) (z : Z) : length (to_bits w z) = w.
Proof.
  revert z. induction w as [| w IH]; intros z; [done |].
  simpl. rewrite length_app, IH. simpl. lia.
Qed.

Lemma to_bits_is_bit (w : nat) (z : Z) : Forall is_bit (to_bits w z).
Proof.
  revert z. induction w as [| w IH]; intros z; simpl; [constructor |].
  apply Forall_app. split; [apply IH |].
  constructor; [| constructor].
  destruct (Z.odd z); [by right | by left].
Qed.

Lemma bin_value_to_bits (w : nat) (z : Z) :
  bin_value (to_bits w z) = z mod 2 ^ Z.of_nat w.
Proof.
  revert z. induction w as [| w IH]; intros z.
  - simpl. by rewrite Z.mod_1_r.
  - cbn [to_bits]. rewrite bin_value_snoc, IH.
    rewrite Nat2Z.inj_succ, Z.pow_succ_r by lia.
    rewrite Z.rem_mul_r by lia.
    rewrite (Zmod_odd z).
    destruct (Z.odd z); [change (bit_value "1") with 1
                        | change (bit_value "0") with 0]; lia.
Qed.

(** Reading back a field of positive width gives the value laid out. *)
Lemma py_int_to_bits (w : nat) (z : Z) :
  (0 < w)%nat -> in_width (Z.of_nat w) z ->
  py_int 2 (to_bits w z) = Some z.
Proof.
  intros Hw Hz. rewrite py_int_bits.
  - by rewrite bin_value_to_bits, Z.mod_small.
  - intros Hnil. apply (f_equal length) in Hnil.
    rewrite length_to_bits in Hnil. simpl in Hnil. lia.
  - apply to_bits_is_bit.
Qed.

(** ** Slices *)

Lemma slice_to_nonneg (n : Z) (s : str) :
  0 <= n -> slice_to n s = take (Z.to_nat n) s.
Proof. intros Hn. unfold slice_to. by rewrite (proj2 (Z.leb_le 0 n) Hn). Qed.

Lemma slice_from_nonneg (n : Z) (s : str) :
  0 <= n -> slice_from n s = drop (Z.to_nat n) s.
Proof. intros Hn. unfold slice_from. by rewrite (proj2 (Z.leb_le 0 n) Hn). Qed.

(** A slice and its complement make up the string, for every index. *)
Lemma slice_to_from (n : Z) (s : str) : slice_to n s ++ slice_from n s = s.
Proof. unfold slice_to, slice_from. case_match; apply take_drop. Qed.

Lemma slice_to_app (w : nat) (a b : str) :
  length a = w -> slice_to (Z.of_nat w) (a ++ b) = a.
Proof.
  intros <-. rewrite slice_to_nonneg, Nat2Z.id by lia.
  by rewrite take_app_length.
Qed.

Lemma slice_from_app (w : nat) (a b : str) :
  length a = w -> slice_from (Z.of_nat w) (a ++ b) = b.
Proof.
  intros <-. rewrite slice_from_nonneg, Nat2Z.id by lia.
  by rewrite drop_app_length.
Qed.

(** ** Rules of the weakest precondition *)

Lemma wp_bind {A B} (m : M A) (f : A -> M B) Q E st :
  wp m (fun a st' => wp (f a) Q E st') E st -> wp (m ≫= f) Q E st.
Proof. unfold wp, mbind, M_bind. by destruct (m st). Qed.

Lemma wp_ret {A} (a : A) (Q : A -> CANDecoder -> Prop) E st :
  Q a st -> wp (mret a) Q E st.
Proof. done. Qed.

Lemma wp_raise {A} (e : exn) (Q : A -> CANDecoder -> Prop) E st :
  E e st -> wp (raise e) Q E st.
Proof. done. Qed.

Lemma wp_get_message (Q : str -> CANDecoder -> Prop) E st :
  Q (message st) st -> wp get_message Q E st.
Proof. done. Qed.

Lemma wp_get_data (Q : gmap string pyval -> CANDecoder -> Prop) E st :
  Q (data st) st -> wp get_data Q E st.
Proof. done. Qed.

Lemma wp_set_message s (Q : unit -> CANDecoder -> Prop) E st :
  Q tt {| message := s; data := data st |} -> wp (set_message s) Q E st.
Proof. done. Qed.

Lemma wp_set_item key v (Q : unit -> CANDecoder -> Prop) E st :
  Q tt {| message := message st; data := <[key := v]> (data st) |} ->
  wp (set_item key v) Q E st.
Proof. done. Qed.

Lemma wp_get_item key v (Q : pyval -> CANDecoder -> Prop) E st :
  data st !! key = Some v -> Q v st -> wp (get_item key) Q E st.
Proof. unfold wp, get_item. by intros ->. Qed.

(** A read of a positive number of bits either stores the value of the
    slice or raises [ValueError]; the cursor has moved in both cases. *)
Lemma wp_read_field key n (Q : unit -> CANDecoder -> Prop) E st :
  0 < n ->
  (forall z, py_int 2 (slice_to n (message st)) = Some z ->
     Q tt {| message := slice_from n (message st);
             data := <[key := PInt z]> (data st) |}) ->
  (py_int 2 (slice_to n (message st)) = None ->
     E ValueError {| message := slice_from n (message st);
                     data := data st |}) ->
  wp (read_field key n) Q E st.
Proof.
  intros Hn HQ HE.
  unfold wp, read_field, read_bits_as_int, mbind, M_bind, read_bits.
  rewrite (proj2 (Z.ltb_lt 0 n) Hn).
  destruct (py_int 2 (slice_to n (message st))) as [z |]; simpl; auto.
Qed.

(** A read of no bits stores [None] and leaves the cursor alone. *)
Lemma wp_read_field_none key n (Q : unit -> CANDecoder -> Prop) E st :
  n <= 0 ->
  Q tt {| message := message st; data := <[key := PNone]> (data st) |} ->
  wp (read_field key n) Q E st.
Proof.
  intros Hn HQ. unfold wp, read_field, read_bits_as_int, mbind, M_bind.
  by rewrite (proj2 (Z.ltb_ge 0 n) Hn).
Qed.

(** The comparison of a stored integer with the text ["0"] is false, so
    the check lets every integer through. *)
Lemma wp_check_fixed_bit key name z (Q : unit -> CANDecoder -> Prop) E st :
  data st !! key = Some (PInt z) -> Q tt st ->
  wp (check_fixed_bit key name) Q E st.
Proof.
  intros Hk HQ. unfold wp, check_fixed_bit, mbind, M_bind, get_item.
  by rewrite Hk.
Qed.

Lemma wp_elim {A} (m : M A) Q E st :
  wp m Q E st ->
  match m st with
  | Ok a st' => Q a st'
  | Raise e st' => E e st'
  end.
Proof. done. Qed.

Ltac solve_lookup :=
  cbn [data];
  repeat first [ rewrite lookup_insert_eq | rewrite lookup_insert_ne by done ];
  reflexivity.

Ltac wp_simpl := cbn [message data]; lazy beta.

Ltac wp_read :=
  apply wp_read_field; [lia | intros ? ? | intros ?]; wp_simpl.

Ltac wp_step :=
  lazymatch goal with
  | |- wp (mbind _ _) _ _ _ => apply wp_bind
  | |- wp (mret _) _ _ _ => apply wp_ret
  | |- wp (raise _) _ _ _ => apply wp_raise
  | |- wp get_message _ _ _ => apply wp_get_message
  | |- wp get_data _ _ _ => apply wp_get_data
  | |- wp (set_message _) _ _ _ => apply wp_set_message
  | |- wp (set_item _ _) _ _ _ => apply wp_set_item
  | |- wp (get_item _) _ _ _ => eapply wp_get_item; [solve_lookup |]
  | |- wp (check_fixed_bit _ _) _ _ _ =>
      eapply wp_check_fixed_bit; [solve_lookup |]
  end; wp_simpl.

(** ** The field walk, step by step *)

Ltac wp_data_read :=
  lazymatch goal with
  | |- wp (read_field _ ?n) _ _ _ =>
      destruct (Z_lt_le_dec 0 n);
      [ apply wp_read_field; [assumption | intros ? ? | intros ?]
      | apply wp_read_field_none; [assumption |] ];
      wp_simpl
  end.

Ltac wp_branch :=
  lazymatch goal with
  | |- wp (match sensor_lookup ?v with _ => _ end) _ _ _ =>
      let Hs := fresh "Hsensor" in
      destruct (sensor_lookup v) eqn:Hs
  | |- wp (if ?z =? 1 then _ else _) _ _ _ =>
      let Hi := fresh "Hide" in
      destruct (Z.eqb_spec z 1) as [Hi | Hi]
  | |- wp (py_to_int (PInt _)) _ _ _ => cbn [py_to_int]
  | |- wp (py_times (PInt _) _) _ _ _ => cbn [py_times]
  end.

Ltac wp_read_data := wp_data_read; cbn [message data] in *.

Ltac wp_walk :=
  repeat first [ wp_step | wp_branch | wp_read; cbn [message data] in * | wp_read_data ].

(** The only exceptions the field walk raises are [ValueError], from a
    read at the end of the message, and [NotImplementedError], from an
    arbitration id outside the table. *)
Lemma walk_exceptions (st : CANDecoder) :
  wp _decode_can_message (fun _ _ => True)
     (fun e _ => e = ValueError \/ e = NotImplementedError) st.
Proof.
  unfold _decode_can_message. wp_walk; auto.
Qed.

(** A one-character slice that [int(_, 2)] accepts is a single bit. *)
Lemma py_int_one_char (s : str) (z : Z) :
  py_int 2 (slice_to 1 s) = Some z -> z = 0 \/ z = 1.
Proof.
  rewrite slice_to_nonneg by lia. change (Z.to_nat 1) with 1%nat.
  destruct s as [| c s]; [discriminate |].
  cbn [take].
  destruct c as [[] [] [] [] [] [] [] []]; vm_compute;
    intros [= <-] || discriminate; auto.
Qed.

(** What a successful field walk leaves under the keys of the identifier
    extension, in terms of the bits that follow the two-character marker. *)
Lemma walk_extension (st : CANDecoder) :
  wp _decode_can_message
     (fun r _ =>
        let d := r.2 in
        let bits := drop 2 (message st) in
        (d !! "ide" = Some (PInt 0) \/ d !! "ide" = Some (PInt 1))
        /\ (d !! "ide" = Some (PInt 0) ->
            d !! "srr" = Some PNone /\ d !! "extended_can_id" = Some PNone)
        /\ (d !! "ide" = Some (PInt 1) ->
            exists first second,
              py_int 2 (take 1 (drop 12 bits)) = Some first
              /\ py_int 2 (take 1 (drop 32 bits)) = Some second
              /\ d !! "srr" = Some (PInt first)
              /\ d !! "rtr" = Some (PInt second)))
     (fun _ _ => True) st.
Proof.
  assert (Hfirst : forall x : str,
             drop 12 x = slice_from 11 (slice_from 1 x)).
  { intros x. rewrite !slice_from_nonneg by lia. by rewrite drop_drop. }
  assert (Hsecond : forall x : str,
             drop 32 x
             = slice_from 18 (slice_from 1 (slice_from 1
                 (slice_from 11 (slice_from 1 x))))).
  { intros x. rewrite !slice_from_nonneg by lia. by rewrite !drop_drop. }
  unfold _decode_can_message. wp_walk; auto.
  all: cbn [snd].
  all: repeat first [ rewrite lookup_insert_eq
                    | rewrite lookup_insert_ne by done ].
  all: match goal with
       | Hide : _ = 1 |- _ =>
           subst; split; [by right |]; split; [by intros [=] |];
           intros _; rewrite Hfirst, Hsecond;
           match goal with
           | Ha : py_int 2 (slice_to 1 (slice_from 11 _)) = Some ?a,
             Hb : py_int 2 (slice_to 1 (slice_from 18 _)) = Some ?b |- _ =>
               exists a, b; split; [exact Ha | split; [exact Hb | done]]
           end
       | Hide : _ <> 1 |- _ =>
           match goal with
           | H : py_int 2 (slice_to 1 _) = Some ?z |- context [PInt ?z] =>
               destruct (py_int_one_char _ _ H) as [-> | ->]; [| done]
           end;
           split; [by left |]; split; [done | by intros [=]]
       end.
Qed.

(** In the dictionary of every message that [decode_can_message_full_dict]
    decodes, the extension keys follow the decoded flag:
    when the identifier extension flag is 0 the keys ["srr"] and
    ["extended_can_id"] hold [None]; when it is 1, ["srr"] holds the bit
    read before the flag (bit 12 of the frame) and ["rtr"] holds the bit
    read after the 18-bit extension (bit 32), which replaces the first. *)
Theorem extended_fields_follow_ide (m : raw_message) (sensor : SensorType)
    (d : gmap string pyval) :
  decode_full m = inr (sensor, d) ->
  exists st,
    init m = inr st
    /\ (d !! "ide" = Some (PInt 0) \/ d !! "ide" = Some (PInt 1))
    /\ (d !! "ide" = Some (PInt 0) ->
        d !! "srr" = Some PNone /\ d !! "extended_can_id" = Some PNone)
    /\ (d !! "ide" = Some (PInt 1) ->
        exists first second,
          py_int 2 (take 1 (drop 12 (drop 2 (message st)))) = Some first
          /\ py_int 2 (take 1 (drop 32 (drop 2 (message st)))) = Some second
          /\ d !! "srr" = Some (PInt first)
          /\ d !! "rtr" = Some (PInt second)).
Proof.
  unfold decode_full, run, decode_can_message_full_dict.
  destruct (init m) as [e | st]; [discriminate |].
  pose proof (wp_elim _ _ _ _ (walk_extension st)) as Hwalk.
  destruct (_decode_can_message st) as [[s' d'] st' | e st']; [| discriminate].
  intros [= -> ->]. exists st. split; [reflexivity |]. exact Hwalk.
Qed.

Lemma extended_fields_follow_ide_witness :
  exists st,
    init (MsgStr (layout frame_extended)) = inr st
    /\ (frame_dict frame_extended !! "ide" = Some (PInt 0)
        \/ frame_dict frame_extended !! "ide" = Some (PInt 1))
    /\ (frame_dict frame_extended !! "ide" = Some (PInt 0) ->
        frame_dict frame_extended !! "srr" = Some PNone
        /\ frame_dict frame_extended !! "extended_can_id" = Some PNone)
    /\ (frame_dict frame_extended !! "ide" = Some (PInt 1) ->
        exists first second,
          py_int 2 (take 1 (drop 12 (drop 2 (message st)))) = Some first
          /\ py_int 2 (take 1 (drop 32 (drop 2 (message st)))) = Some second
          /\ frame_dict frame_extended !! "srr" = Some (PInt first)
          /\ frame_dict frame_extended !! "rtr" = Some (PInt second)).
Proof.
  apply (extended_fields_follow_ide _ WheelSpeedSensor).
  reflexivity.
Defined.

(** ** The bit cursor *)

Lemma read_bits_nonneg (n : Z) (st : CANDecoder) :
  0 <= n ->
  read_bits n st
  = Ok (take (Z.to_nat n) (message st))
       {| message := drop (Z.to_nat n) (message st); data := data st |}.
Proof.
  intros Hn. unfold read_bits.
  by rewrite slice_to_nonneg, slice_from_nonneg.
Qed.

(** Successive reads never fail, and their results followed by what is
    left of the message make up the message they started from. *)
Lemma read_many_spec (ns : list Z) (st : CANDecoder) :
  exists bs st',
    read_many ns st = Ok bs st'
    /\ concat bs ++ message st' = message st
    /\ data st' = data st.
Proof.
  revert st. induction ns as [| n ns IH]; intros st.
  - by exists [], st.
  - destruct (IH {| message := slice_from n (message st);
                    data := data st |}) as (bs & st' & Hrun & Hcat & Hdata).
    exists (slice_to n (message st) :: bs), st'.
    cbn [read_many]. unfold mbind, M_bind, read_bits at 1.
    rewrite Hrun. split; [reflexivity |].
    cbn [message data] in Hcat, Hdata. split; [| exact Hdata].
    cbn [concat]. rewrite <- app_assoc, Hcat. apply slice_to_from.
Qed.

(** C10. [read_bits] never fails: asked for [n >= 0] bits of a message
    with [m] bits left it returns the first [min n m] bits and leaves the
    rest, so with fewer than [n] bits left the result is shorter than [n]
    and no error is raised; the results of successive reads, put end to
    end, are a prefix of the message. *)
Theorem read_bits_total_truncating (n : Z) (st : CANDecoder) (ns : list Z) :
  0 <= n ->
  let k := Nat.min (Z.to_nat n) (length (message st)) in
  read_bits n st
  = Ok (take k (message st))
       {| message := drop k (message st); data := data st |}
  /\ length (take k (message st)) = k
  /\ exists bs st',
       read_many ns st = Ok bs st' /\ concat bs `prefix_of` message st.
Proof.
  intros Hn k. split; [| split].
  - rewrite read_bits_nonneg by done. subst k.
    destruct (Nat.le_ge_cases (Z.to_nat n) (length (message st))) as [Hle | Hge].
    + by rewrite Nat.min_l.
    + rewrite Nat.min_r by done.
      by rewrite !take_ge, !drop_ge by lia.
  - rewrite length_take. subst k. lia.
  - destruct (read_many_spec ns st) as (bs & st' & Hrun & Hcat & _).
    exists bs, st'. split; [exact Hrun |].
    exists (message st'). by rewrite Hcat.
Qed.

Lemma read_bits_total_truncating_witness :
  let st := {| message := lit "10"; data := ∅ |} in
  read_bits 3 st = Ok (lit "10") {| message := []; data := ∅ |}
  /\ length (lit "10") = 2%nat
  /\ exists bs st',
       read_many [1; 5] st = Ok bs st' /\ concat bs `prefix_of` lit "10".
Proof.
  apply (read_bits_total_truncating 3 {| message := lit "10"; data := ∅ |}
           [1; 5]).
  lia.
Defined.

(** C6, as the code has it.  With fewer than [n] bits left, [read_bits n]
    raises nothing: it returns all the bits that are left and empties the
    message.  [read_bits_as_int n] then returns the value of those bits
    when there is at least one, and raises [ValueError], the exception of
    [int], when there is none. *)
Theorem short_read_returns_remaining (n : Z) (st : CANDecoder) :
  Z.of_nat (length (message st)) < n ->
  read_bits n st = Ok (message st) {| message := []; data := data st |}
  /\ (message st = [] ->
      read_bits_as_int n st
      = Raise ValueError {| message := []; data := data st |})
  /\ (message st <> [] -> Forall is_bit (message st) ->
      read_bits_as_int n st
      = Ok (PInt (bin_value (message st)))
           {| message := []; data := data st |}).
Proof.
  intros Hlen.
  assert (Hread : read_bits n st
                  = Ok (message st) {| message := []; data := data st |}).
  { rewrite read_bits_nonneg by lia.
    by rewrite take_ge, drop_ge by lia. }
  assert (Hpos : (0 <? n) = true) by (apply Z.ltb_lt; lia).
  split; [exact Hread |].
  unfold read_bits_as_int, mbind, M_bind. rewrite Hpos, Hread.
  split.
  - by intros ->.
  - intros Hne Hbits. by rewrite py_int_bits.
Qed.

Lemma short_read_returns_remaining_witness :
  let st := {| message := lit "10"; data := ∅ |} in
  read_bits 3 st = Ok (lit "10") {| message := []; data := ∅ |}
  /\ (lit "10" = [] ->
      read_bits_as_int 3 st = Raise ValueError {| message := []; data := ∅ |})
  /\ (lit "10" <> [] -> Forall is_bit (lit "10") ->
      read_bits_as_int 3 st
      = Ok (PInt (bin_value (lit "10"))) {| message := []; data := ∅ |}).
Proof.
  apply (short_read_returns_remaining 3 {| message := lit "10"; data := ∅ |}).
  simpl. lia.
Defined.

(** C6, counterexample.  Three bits are requested from a message with two
    bits left; both reads return a value and neither raises an exception. *)
Lemma short_read_raises_nothing :
  let st := {| message := lit "10"; data := ∅ |} in
  (length (message st) < 3)%nat
  /\ read_bits 3 st = Ok (lit "10") {| message := []; data := ∅ |}
  /\ read_bits_as_int 3 st = Ok (PInt 2) {| message := []; data := ∅ |}
  /\ (forall e st', read_bits 3 st <> Raise e st')
  /\ (forall e st', read_bits_as_int 3 st <> Raise e st').
Proof.
  cbn zeta. split; [simpl; lia |].
  split; [reflexivity |]. split; [reflexivity |].
  split; intros e st' Hraise; vm_compute in Hraise; discriminate Hraise.
Qed.

(** C7, on the code.  [read_bits_as_int 0] returns [None], not 0, in every
    state, and the decoded data of a frame with a data length code of 0 is
    [None]. *)
Theorem read_zero_bits_returns_none :
  (forall st, read_bits_as_int 0 st = Ok PNone st)
  /\ decode (MsgStr frame_dlc0) = inr (Some TemperatureSensor, PNone)
  /\ decode (MsgStr frame_dlc0) <> inr (Some TemperatureSensor, PInt 0).
Proof.
  split; [reflexivity |]. split; [reflexivity |].
  intros Heq. vm_compute in Heq. discriminate Heq.
Qed.

(** ** The constructor *)

Lemma to_binary_text_bits (s : str) :
  s <> [] -> Forall is_bit s ->
  to_binary_text (MsgStr s) = inr (bin (bin_value s)).
Proof. intros Hne Hs. unfold to_binary_text. by rewrite py_int_bits. Qed.

Lemma replicate_zero_bits (k : nat) : Forall is_bit (replicate k "0"%char).
Proof. apply Forall_replicate. by left. Qed.

Lemma minimal_bits_zeros (k : nat) (s : str) :
  minimal_bits (replicate k "0"%char ++ s) = minimal_bits s.
Proof.
  unfold minimal_bits. f_equal.
  induction k as [| k IH]; [done |]. exact IH.
Qed.

(** A method run on the decoder of a message depends on the message only
    through the state the constructor builds. *)
Lemma run_init {A} (f : M A) (m1 m2 : raw_message) :
  init m1 = init m2 -> run f m1 = run f m2.
Proof. unfold run. by intros ->. Qed.

(** Text is formatted for the log without a conversion. *)
Lemma init_text (s : str) : init (MsgStr s) = init_body (MsgStr s).
Proof. reflexivity. Qed.

(** An integer of at most [int_max_str_digits] decimal digits passes the
    formatting of line 44; a longer one is refused there. *)
Lemma init_int (z : Z) :
  Z.abs z < 10 ^ int_max_str_digits -> init (MsgInt z) = init_body (MsgInt z).
Proof.
  intros Hz. unfold init, debug_format.
  by destruct (Z.leb_spec (10 ^ int_max_str_digits) (Z.abs z)); [lia |].
Qed.

Lemma init_int_refused (z : Z) :
  10 ^ int_max_str_digits <= Z.abs z -> init (MsgInt z) = inl ValueError.
Proof.
  intros Hz. unfold init, debug_format.
  by destruct (Z.leb_spec (10 ^ int_max_str_digits) (Z.abs z)); [| lia].
Qed.

Lemma digit_limit_above_2_128 : 2 ^ 128 < 10 ^ int_max_str_digits.
Proof. vm_compute. reflexivity. Qed.

(** C9, as the code has it.  The constructor keeps of a string of binary
    digits only its value: the message becomes ["0b"] followed by the
    digits without their leading zeros.  So the string [s] and the string
    [s] behind [k] more zeros give the same result, value or exception,
    with [decode] and with [decode_full]; the integer [s] denotes gives
    that result too when it has at most 4300 decimal digits, the size up
    to which the constructor can format it for its log. *)
Theorem normalization_discards_leading_zeros (s : str) (k : nat) :
  s <> [] -> Forall is_bit s ->
  let padded := MsgStr (replicate k "0"%char ++ s) in
  let number := MsgInt (bin_value s) in
  to_binary_text (MsgStr s) = inr (lit "0b" ++ minimal_bits s)
  /\ to_binary_text padded = inr (lit "0b" ++ minimal_bits s)
  /\ to_binary_text number = inr (lit "0b" ++ minimal_bits s)
  /\ decode padded = decode (MsgStr s)
  /\ decode_full padded = decode_full (MsgStr s)
  /\ (bin_value s < 10 ^ int_max_str_digits ->
      decode number = decode (MsgStr s)
      /\ decode_full number = decode_full (MsgStr s)).
Proof.
  intros Hne Hs padded number.
  assert (Hpad_ne : replicate k "0"%char ++ s <> []).
  { destruct s; [done |]. by destruct k. }
  assert (Hpad_bits : Forall is_bit (replicate k "0"%char ++ s)).
  { apply Forall_app. split; [apply replicate_zero_bits | done]. }
  assert (H1 : to_binary_text (MsgStr s) = inr (lit "0b" ++ minimal_bits s)).
  { rewrite to_binary_text_bits by done. by rewrite bin_of_bits. }
  assert (H2 : to_binary_text padded = inr (lit "0b" ++ minimal_bits s)).
  { unfold padded. rewrite to_binary_text_bits by done.
    by rewrite bin_of_bits, minimal_bits_zeros. }
  assert (H3 : to_binary_text number = inr (lit "0b" ++ minimal_bits s)).
  { unfold number. cbn [to_binary_text]. by rewrite bin_of_bits. }
  assert (Hi2 : init padded = init (MsgStr s)).
  { unfold padded in *. rewrite !init_text. unfold init_body.
    by rewrite H1, H2. }
  do 3 (split; [done |]).
  split; [by apply run_init |]. split; [by apply run_init |].
  intros Hsmall.
  assert (Hi3 : init number = init (MsgStr s)).
  { unfold number in *. rewrite init_int, init_text.
    - unfold init_body. by rewrite H1, H3.
    - pose proof (bin_value_nonneg s). lia. }
  split; by apply run_init.
Qed.

Lemma normalization_discards_leading_zeros_witness :
  let s := scenario_temperature in
  let padded := MsgStr (replicate 3 "0"%char ++ s) in
  let number := MsgInt (bin_value s) in
  to_binary_text (MsgStr s) = inr (lit "0b" ++ minimal_bits s)
  /\ to_binary_text padded = inr (lit "0b" ++ minimal_bits s)
  /\ to_binary_text number = inr (lit "0b" ++ minimal_bits s)
  /\ decode padded = decode (MsgStr s)
  /\ decode_full padded = decode_full (MsgStr s)
  /\ decode number = decode (MsgStr s)
  /\ decode_full number = decode_full (MsgStr s).
Proof.
  assert (Hbits : Forall is_bit scenario_temperature).
  { vm_compute.
    repeat (apply List.Forall_cons; [first [by left | by right] |]).
    apply List.Forall_nil. }
  assert (Hne : scenario_temperature <> []) by discriminate.
  destruct (normalization_discards_leading_zeros scenario_temperature 3
              Hne Hbits) as (H1 & H2 & H3 & H4 & H5 & H6).
  do 5 (split; [assumption |]).
  apply H6. vm_compute. reflexivity.
Defined.

(** The value of a 1 followed by zeros, and the size of the least power of
    two with more than 4300 decimal digits. *)
Lemma bin_value_one_zeros (n : nat) :
  bin_value ("1"%char :: replicate n "0"%char) = 2 ^ Z.of_nat n.
Proof.
  induction n as [| n IH]; [reflexivity |].
  rewrite replicate_S_end, app_comm_cons, bin_value_snoc, IH.
  change (bit_value "0") with 0.
  rewrite Nat2Z.inj_succ, Z.pow_succ_r by lia. lia.
Qed.

Lemma digit_limit_below_2_14285 : 10 ^ int_max_str_digits <= 2 ^ 14285.
Proof.
  change int_max_str_digits with (59 * 72 + 52).
  change 14285 with (196 * 72 + 173).
  rewrite !Z.pow_add_r, !Z.pow_mul_r by lia.
  apply Z.mul_le_mono_nonneg.
  - apply Z.pow_nonneg. lia.
  - apply Z.pow_le_mono_l. split; [lia |]. vm_compute. discriminate.
  - lia.
  - vm_compute. discriminate.
Qed.

(** C9, counterexample.  The string of a 1 and 14285 zeros denotes
    [2^14285], an integer of 4301 decimal digits.  The string is refused
    by the length check with [MessageLengthException]; the integer is
    refused earlier, with [ValueError], when line 44 formats it. *)
Lemma long_number_fails_differently :
  Forall is_bit digit_limit_bits
  /\ bin_value digit_limit_bits = 2 ^ 14285
  /\ decode (MsgStr digit_limit_bits) = inl (MessageLengthException 14288)
  /\ decode (MsgInt (bin_value digit_limit_bits)) = inl ValueError
  /\ decode (MsgInt (bin_value digit_limit_bits))
     <> decode (MsgStr digit_limit_bits).
Proof.
  assert (Hbits : Forall is_bit (replicate (Z.to_nat 14285) "0"%char))
    by apply replicate_zero_bits.
  assert (Hvalue : bin_value digit_limit_bits = 2 ^ 14285).
  { unfold digit_limit_bits. rewrite bin_value_one_zeros.
    by rewrite Z2Nat.id by lia. }
  assert (Htext : decode (MsgStr digit_limit_bits)
                  = inl (MessageLengthException 14288)).
  { assert (Hinit : init (MsgStr digit_limit_bits)
                    = inl (MessageLengthException 14288)).
    { rewrite init_text. unfold init_body, digit_limit_bits.
      rewrite to_binary_text_bits;
        [| discriminate | by constructor; [right |]].
      rewrite bin_leading_one by done.
      rewrite length_app, length_cons, length_replicate.
      change (length (lit "0b")) with 2%nat.
      destruct (Z.ltb_spec 130
                  (Z.of_nat (2 + S (Z.to_nat 14285)))) as [_ | Hle];
        [| lia].
      f_equal; f_equal; lia. }
    unfold decode, run. by rewrite Hinit. }
  assert (Hint : decode (MsgInt (bin_value digit_limit_bits)) = inl ValueError).
  { assert (Hinit : init (MsgInt (bin_value digit_limit_bits))
                    = inl ValueError).
    { apply init_int_refused. rewrite Hvalue.
      pose proof digit_limit_below_2_14285.
      rewrite Z.abs_eq by (apply Z.pow_nonneg; lia). done. }
    unfold decode, run. by rewrite Hinit. }
  split; [by constructor; [right |] |].
  split; [exact Hvalue |].
  split; [exact Htext |]. split; [exact Hint |].
  rewrite Htext, Hint. discriminate.
Qed.

(** The constructor accepts a message only when the text of [bin], marker
    included, has at most 130 characters: at most 128 bits follow the
    marker of an accepted non-negative message. *)
Lemma init_length (m : raw_message) (st : CANDecoder) :
  init m = inr st -> (length (message st) <= 130)%nat /\ data st = ∅.
Proof.
  unfold init, init_body. destruct (debug_format m); [discriminate |].
  destruct (to_binary_text m) as [e | t]; [discriminate |].
  destruct (Z.ltb_spec 130 (Z.of_nat (length t))); [discriminate |].
  intros [= <-]. cbn [message data]. split; [lia | done].
Qed.

(** Every message that passes the formatting of line 44 and whose bits,
    behind the marker, number 129 or more is refused, with the length of
    the text, marker included. *)
Lemma init_counts_marker (m : raw_message) (bits : str) :
  debug_format m = inr tt ->
  to_binary_text m = inr (lit "0b" ++ bits) ->
  (129 <= length bits)%nat ->
  init m = inl (MessageLengthException (Z.of_nat (length bits) + 2)).
Proof.
  intros Hformat Htext Hlen. unfold init, init_body.
  rewrite Hformat, Htext, length_app.
  change (length (lit "0b")) with 2%nat.
  destruct (Z.ltb_spec 130 (Z.of_nat (2 + length bits))); [| lia].
  do 2 f_equal. lia.
Qed.

(** C5, on the code.  The layout of [frame_130] has exactly 130 bits and
    starts with a 1, so the constructor keeps all of them behind the marker
    ["0b"]; the text has 132 characters and the constructor raises
    [MessageLengthException 132].  A message of 131 bits is refused with
    the length 133. *)
Theorem length_limit_counts_marker :
  length (layout frame_130) = 130%nat
  /\ to_binary_text (MsgStr (layout frame_130))
     = inr (lit "0b" ++ layout frame_130)
  /\ decode_full (MsgStr (layout frame_130))
     = inl (MessageLengthException 132)
  /\ decode (MsgStr (layout frame_130)) = inl (MessageLengthException 132)
  /\ length (drop 2 (bin (2 ^ 130))) = 131%nat
  /\ init (MsgInt (2 ^ 130)) = inl (MessageLengthException 133).
Proof.
  do 5 (split; [vm_compute; reflexivity |]). vm_compute. reflexivity.
Qed.


(** The exceptions of the constructor. *)
Lemma init_exceptions (m : raw_message) (e : exn) :
  init m = inl e ->
  e = ValueError \/ exists n, 130 < n /\ e = MessageLengthException n.
Proof.
  unfold init, init_body.
  destruct (debug_format m) as [e' | []] eqn:Hformat.
  - intros [= <-]. left. destruct m as [s | z]; [discriminate |].
    cbn [debug_format] in Hformat.
    destruct (10 ^ int_max_str_digits <=? Z.abs z);
      [by injection Hformat as <- | discriminate].
  - destruct (to_binary_text m) as [e' | t] eqn:Htext.
    + intros [= <-]. left. destruct m as [s | z]; [| discriminate].
      cbn [to_binary_text] in Htext.
      destruct (py_int 2 s); [discriminate |].
      destruct (py_int 10 s); [discriminate |]. by injection Htext as <-.
    + destruct (Z.ltb_spec 130 (Z.of_nat (length t))); [| discriminate].
      intros [= <-]. right. eauto.
Qed.

(** The exceptions of [decode_can_message_full_dict] on a message: none of
    them is [InvalidBitException]. *)
Lemma decode_full_exceptions (m : raw_message) (e : exn) :
  decode_full m = inl e ->
  e = ValueError \/ e = NotImplementedError
  \/ exists n, e = MessageLengthException n.
Proof.
  unfold decode_full, run, decode_can_message_full_dict.
  destruct (init m) as [e' | st] eqn:Hinit.
  - intros [= <-].
    destruct (init_exceptions m e' Hinit) as [-> | (n & _ & ->)]; eauto.
  - pose proof (wp_elim _ _ _ _ (walk_exceptions st)) as Hwalk.
    destruct (_decode_can_message _) as [a st' | e' st']; [discriminate |].
    intros [= <-]. destruct Hwalk as [-> | ->]; auto.
Qed.

(** C3, on the code.  A frame with the start of frame bit 1, the CRC
    delimiter 0 and the ACK delimiter 0 is decoded without an exception,
    and the three values are in the returned dictionary. *)
Theorem fixed_bits_not_checked :
  layout frame_bad_fixed_bits = frame_with (lit "00000000001") (lit "0") (lit "0")
  /\ decode_full (MsgStr (layout frame_bad_fixed_bits))
     = inr (TemperatureSensor, frame_dict frame_bad_fixed_bits)
  /\ frame_dict frame_bad_fixed_bits !! "sof" = Some (PInt 1)
  /\ frame_dict frame_bad_fixed_bits !! "crc_delimiter" = Some (PInt 0)
  /\ frame_dict frame_bad_fixed_bits !! "ack_delimiter" = Some (PInt 0).
Proof.
  split; [vm_compute; reflexivity |]. do 3 (split; [reflexivity |]).
  reflexivity.
Qed.

(** ** The arbitration id *)

Lemma sensor_lookup_outside (id : Z) :
  ~ (1 <= id <= 5) -> sensor_lookup (PInt id) = None.
Proof.
  intros Hid. unfold sensor_lookup, ID_TO_SENSOR_MAP.
  repeat (rewrite lookup_insert_ne by lia). apply lookup_singleton_ne. lia.
Qed.

(** How the field walk ends, told from the first twelve bits: it returns
    only when the arbitration id is in the table; with an id outside the
    table it raises [NotImplementedError] when the twelve bits, and no
    more, have been taken from the message. *)
Lemma walk_classification (st : CANDecoder) :
  let bits := slice_from 2 (message st) in
  let classified :=
    exists id s, py_int 2 (slice_to 11 (slice_from 1 bits)) = Some id
                 /\ sensor_lookup (PInt id) = Some s in
  wp _decode_can_message
     (fun _ _ => classified)
     (fun e st' =>
        (e = ValueError
         /\ (py_int 2 (slice_to 1 bits) = None
             \/ py_int 2 (slice_to 11 (slice_from 1 bits)) = None
             \/ classified))
        \/ (e = NotImplementedError
            /\ exists sof id,
                 py_int 2 (slice_to 1 bits) = Some sof
                 /\ py_int 2 (slice_to 11 (slice_from 1 bits)) = Some id
                 /\ st' = {| message := slice_from 11 (slice_from 1 bits);
                             data := <["can_id" := PInt id]>
                                       (<["sof" := PInt sof]> (data st)) |}))
     st.
Proof.
  intros bits classified. subst bits classified.
  unfold _decode_can_message. wp_walk.
  all: first [ by eauto 10
             | by (left; split; [done |]; eauto 10)
             | by (right; split; [done |]; eauto 10) ].
Qed.

(** C4, as the code has it.  When the arbitration id read from the message
    is not one of 1 to 5, the field walk raises [NotImplementedError], an
    exception without arguments, as soon as the id has been read: the
    twelve bits of the start of frame and the id are gone from the message
    and only they are in the dictionary. *)
Theorem unknown_id_raises_not_implemented (m : raw_message)
    (st : CANDecoder) (sof id : Z) :
  init m = inr st ->
  py_int 2 (take 1 (drop 2 (message st))) = Some sof ->
  py_int 2 (take 11 (drop 1 (drop 2 (message st)))) = Some id ->
  ~ (1 <= id <= 5) ->
  _decode_can_message st
  = Raise NotImplementedError
      {| message := drop 12 (drop 2 (message st));
         data := <["can_id" := PInt id]> (<["sof" := PInt sof]> ∅) |}
  /\ decode_full m = inl NotImplementedError
  /\ decode m = inl NotImplementedError
  /\ exn_args NotImplementedError = [].
Proof.
  intros Hinit Hsof Hid Hout.
  pose proof (sensor_lookup_outside id Hout) as Hnone.
  pose proof (init_length m st Hinit) as [_ Hdata].
  pose proof (wp_elim _ _ _ _ (walk_classification st)) as Hwalk.
  cbn zeta in Hwalk.
  assert (Hwalked : _decode_can_message st
    = Raise NotImplementedError
        {| message := drop 12 (drop 2 (message st));
           data := <["can_id" := PInt id]> (<["sof" := PInt sof]> ∅) |}).
  { destruct (_decode_can_message st) as [r st' | e st'].
    - destruct Hwalk as (id' & s & Hid' & Hs).
      change (py_int 2 (take 11 (drop 1 (drop 2 (message st)))) = Some id')
        in Hid'.
      congruence.
    - destruct Hwalk as [(-> & [Hn | [Hn | (id' & s & Hid' & Hs)]])
                        | (-> & sof' & id' & Hsof' & Hid' & ->)].
      + change (py_int 2 (take 1 (drop 2 (message st))) = None) in Hn.
        congruence.
      + change (py_int 2 (take 11 (drop 1 (drop 2 (message st)))) = None)
          in Hn.
        congruence.
      + change (py_int 2 (take 11 (drop 1 (drop 2 (message st)))) = Some id')
          in Hid'.
        congruence.
      + change (py_int 2 (take 1 (drop 2 (message st))) = Some sof') in Hsof'.
        change (py_int 2 (take 11 (drop 1 (drop 2 (message st)))) = Some id')
          in Hid'.
        rewrite Hdata.
        replace sof' with sof by congruence.
        replace id' with id by congruence.
        do 2 f_equal.
        rewrite !slice_from_nonneg by lia. by rewrite drop_drop. }
  split; [exact Hwalked |].
  unfold decode, decode_full, run, decode_can_message,
    decode_can_message_full_dict, mbind, M_bind.
  by rewrite Hinit, Hwalked.
Qed.

Lemma unknown_id_raises_not_implemented_witness :
  _decode_can_message {| message := lit "0b" ++ frame_unknown_id; data := ∅ |}
  = Raise NotImplementedError
      {| message := drop 12 frame_unknown_id;
         data := <["can_id" := PInt 2047]> (<["sof" := PInt 1]> ∅) |}
  /\ decode_full (MsgStr frame_unknown_id) = inl NotImplementedError
  /\ decode (MsgStr frame_unknown_id) = inl NotImplementedError
  /\ exn_args NotImplementedError = [].
Proof.
  apply (unknown_id_raises_not_implemented (MsgStr frame_unknown_id)
           {| message := lit "0b" ++ frame_unknown_id; data := ∅ |} 1 2047).
  - vm_compute. reflexivity.
  - vm_compute. reflexivity.
  - vm_compute. reflexivity.
  - lia.
Defined.

(** C4, counterexample.  The arbitration id of the frame is 2047; the
    exception raised has no arguments, so it does not carry the id. *)
Lemma unknown_id_not_carried :
  py_int 2 (take 11 (drop 1 frame_unknown_id)) = Some 2047
  /\ decode_full (MsgStr frame_unknown_id) = inl NotImplementedError
  /\ ~ (exists e, decode_full (MsgStr frame_unknown_id) = inl e
                  /\ exn_args e = [PInt 2047]).
Proof.
  split; [vm_compute; reflexivity |].
  assert (Hrun : decode_full (MsgStr frame_unknown_id)
                 = inl NotImplementedError) by (vm_compute; reflexivity).
  split; [exact Hrun |].
  intros (e & He & Hargs). rewrite Hrun in He.
  injection He as <-. discriminate Hargs.
Qed.

(** ** Reading back a hand-made layout *)

(** Reading a field of width [w] from a message that starts with the [w]
    bits of a value that fits stores that value and leaves the rest. *)
Lemma wp_read_field_app key (w : nat) (v : Z) (rest : str)
    (Q : unit -> CANDecoder -> Prop) E st :
  message st = to_bits w v ++ rest ->
  (0 < w)%nat -> in_width (Z.of_nat w) v ->
  Q tt {| message := rest; data := <[key := PInt v]> (data st) |} ->
  wp (read_field key (Z.of_nat w)) Q E st.
Proof.
  intros Hmsg Hw Hv HQ. apply wp_read_field; [lia | |]; rewrite Hmsg.
  - rewrite slice_to_app, slice_from_app by apply length_to_bits.
    rewrite py_int_to_bits by done. by intros z [= <-].
  - rewrite slice_to_app by apply length_to_bits.
    by rewrite py_int_to_bits.
Qed.

Lemma layout_bits (f : Frame) : Forall is_bit (layout f).
Proof.
  unfold layout. destruct (extension f) as [[srr ext] |];
    rewrite !Forall_app; repeat split; apply to_bits_is_bit.
Qed.

Lemma layout_leading_one (f : Frame) :
  start_of_frame f = 1 ->
  exists t, layout f = "1"%char :: t /\ Forall is_bit t.
Proof.
  intros Hsof. pose proof (layout_bits f) as Hbits.
  unfold layout in *. rewrite Hsof in *.
  change (to_bits 1 1) with ["1"%char] in *.
  eexists. split; [reflexivity |].
  by apply Forall_app in Hbits as [_ Hbits].
Qed.

(** The constructor keeps a layout that starts with a 1 bit as it is,
    behind the marker, when it has at most 128 bits. *)
Lemma init_layout (f : Frame) :
  start_of_frame f = 1 -> (length (layout f) <= 128)%nat ->
  init (MsgStr (layout f))
  = inr {| message := lit "0b" ++ layout f; data := ∅ |}.
Proof.
  intros Hsof Hlen. destruct (layout_leading_one f Hsof) as (t & Hlay & Ht).
  rewrite init_text. unfold init_body. rewrite to_binary_text_bits.
  - rewrite Hlay, bin_leading_one, <- Hlay by done.
    rewrite length_app. change (length (lit "0b")) with 2%nat.
    destruct (Z.ltb_spec 130 (Z.of_nat (2 + length (layout f)))); [lia | done].
  - by rewrite Hlay.
  - apply layout_bits.
Qed.

Ltac wp_field w :=
  eapply (wp_read_field_app _ w);
  [ cbn [message]; reflexivity | lia | assumption || (unfold in_width; lia) | ];
  wp_simpl.

Ltac wp_layout_step :=
  first
  [ wp_step
  | lazymatch goal with
    | |- wp (read_field _ (Z.of_nat ?w)) _ _ _ => wp_field w
    | |- wp (read_field _ ?n) _ _ _ =>
        let w := eval vm_compute in (Z.to_nat n) in wp_field w
    | |- wp (py_to_int (PInt _)) _ _ _ => cbn [py_to_int]
    | |- wp (py_times (PInt _) _) _ _ _ => cbn [py_times]
    | |- wp (if ?a =? ?b then _ else _) _ _ _ =>
        let r := eval vm_compute in (a =? b) in
        change (a =? b) with r; cbv iota
    | |- wp (match sensor_lookup _ with _ => _ end) _ _ _ =>
        cbn [sensor_lookup];
        match goal with
        | H : ID_TO_SENSOR_MAP !! _ = Some _ |- _ => rewrite H
        end
    end ].

Lemma walk_layout (f : Frame) (sensor : SensorType) :
  fields_in_range f ->
  1 <= data_length_code f ->
  ID_TO_SENSOR_MAP !! arbitration_id f = Some sensor ->
  wp _decode_can_message
     (fun r _ => r = (sensor, frame_dict f))
     (fun _ _ => False)
     {| message := lit "0b" ++ layout f; data := ∅ |}.
Proof.
  intros (Hsof & Hid & Hrtr & Hext & Hr0 & Hdlc & Hdata & Hcrc & Hcd
          & Hack & Had & Heof & Hifs) Hlen Hsensor.
  assert (Hwidth : data_length_code f * 8
                   = Z.of_nat (8 * Z.to_nat (data_length_code f))) by lia.
  assert (Hdata' : in_width (Z.of_nat (8 * Z.to_nat (data_length_code f)))
                     (data_field f)).
  { rewrite <- Hwidth. by rewrite Z.mul_comm. }
  unfold _decode_can_message, frame_dict, identifier_extension, layout.
  destruct (extension f) as [[srr ext] |].
  - destruct Hext as [Hsrr Hext]. rewrite <- !app_assoc.
    repeat wp_layout_step. rewrite Hwidth. repeat wp_layout_step.
    reflexivity.
  - rewrite <- !app_assoc.
    repeat wp_layout_step. rewrite Hwidth. repeat wp_layout_step.
    reflexivity.
Qed.

(** The round trip on the frames the decoder reads as they were laid
    out.  Take a frame whose field values fit their
    widths, whose start of frame bit is 1, whose data length code is at
    least 1, whose arbitration id is in the sensor table and whose layout
    has at most 128 bits.  Decoding the layout, given as a string of binary
    digits, returns the sensor of the id and the field values of the
    frame. *)
Theorem layout_round_trip (f : Frame) (sensor : SensorType) :
  fields_in_range f ->
  start_of_frame f = 1 ->
  1 <= data_length_code f ->
  ID_TO_SENSOR_MAP !! arbitration_id f = Some sensor ->
  (length (layout f) <= 128)%nat ->
  decode_full (MsgStr (layout f)) = inr (sensor, frame_dict f).
Proof.
  intros Hrange Hsof Hdlc Hsensor Hlen.
  unfold decode_full, run, decode_can_message_full_dict.
  rewrite init_layout by done.
  pose proof (wp_elim _ _ _ _ (walk_layout f sensor Hrange Hdlc Hsensor))
    as Hwalk.
  destruct (_decode_can_message _) as [r st' | e st']; [by subst r | done].
Qed.

Lemma layout_round_trip_witness :
  decode_full (MsgStr (layout frame_extended))
  = inr (WheelSpeedSensor, frame_dict frame_extended).
Proof.
  apply (layout_round_trip frame_extended WheelSpeedSensor).
  - unfold fields_in_range, in_width. cbn. lia.
  - reflexivity.
  - cbn. lia.
  - reflexivity.
  - vm_compute. lia.
Defined.

(** A frame beyond the length check.  Every field value of [frame_dlc15]
    fits its
    width, and its layout has 167 bits; the constructor refuses it with
    [MessageLengthException], so decoding does not return the frame. *)
Lemma long_frame_not_decoded :
  fields_in_range frame_dlc15
  /\ length (layout frame_dlc15) = 167%nat
  /\ decode_full (MsgStr (layout frame_dlc15))
     = inl (MessageLengthException 158)
  /\ forall sensor,
       decode_full (MsgStr (layout frame_dlc15))
       <> inr (sensor, frame_dict frame_dlc15).
Proof.
  assert (Hrun : decode_full (MsgStr (layout frame_dlc15))
                 = inl (MessageLengthException 158))
    by (vm_compute; reflexivity).
  split; [unfold fields_in_range, in_width; cbn; lia |].
  split; [vm_compute; reflexivity |].
  split; [exact Hrun |].
  intros sensor Heq. rewrite Hrun in Heq. discriminate Heq.
Qed.

(** ** More on the bit cursor *)

(** X1. Reading a field of [w > 0] bits from a message that starts with a
    value written on [w] bits returns that value and leaves the rest of the
    message; the dictionary is not touched. *)
Theorem read_bits_as_int_to_bits (w : nat) (v : Z) (rest : str)
    (d : gmap string pyval) :
  (0 < w)%nat -> in_width (Z.of_nat w) v ->
  read_bits_as_int (Z.of_nat w) {| message := to_bits w v ++ rest; data := d |}
  = Ok (PInt v) {| message := rest; data := d |}.
Proof.
  intros Hw Hv. unfold read_bits_as_int, mbind, M_bind, read_bits.
  assert (Hpos : (0 <? Z.of_nat w) = true) by (apply Z.ltb_lt; lia).
  rewrite Hpos. cbn [message data].
  rewrite slice_to_app, slice_from_app by apply length_to_bits.
  by rewrite py_int_to_bits.
Qed.

Lemma read_bits_as_int_to_bits_witness :
  read_bits_as_int 11 {| message := to_bits 11 1029 ++ lit "101"; data := ∅ |}
  = Ok (PInt 1029) {| message := lit "101"; data := ∅ |}.
Proof.
  apply (read_bits_as_int_to_bits 11 1029 (lit "101") ∅).
  - lia.
  - unfold in_width. simpl. lia.
Defined.

(** X2. On a message of binary digits that is not empty, a read of [n > 0]
    bits returns the big-endian value of the first [n] bits (of all of them
    when fewer are left), a number from 0 to [2^n - 1], and moves the
    cursor past them. *)
Theorem read_bits_as_int_value (n : Z) (st : CANDecoder) :
  0 < n -> Forall is_bit (message st) -> message st <> [] ->
  read_bits_as_int n st
  = Ok (PInt (bin_value (take (Z.to_nat n) (message st))))
       {| message := drop (Z.to_nat n) (message st); data := data st |}
  /\ 0 <= bin_value (take (Z.to_nat n) (message st)) < 2 ^ n.
Proof.
  intros Hn Hbits Hne. split.
  - unfold read_bits_as_int, mbind, M_bind.
    rewrite (proj2 (Z.ltb_lt 0 n) Hn), read_bits_nonneg by lia.
    rewrite py_int_bits; [done | | by apply Forall_take].
    destruct (message st) as [| c s]; [done |].
    destruct (Z.to_nat n) as [| k] eqn:Hk; [lia | done].
  - split; [apply bin_value_nonneg |].
    eapply Z.lt_le_trans; [apply bin_value_bound |].
    apply Z.pow_le_mono_r; [lia |]. rewrite length_take. lia.
Qed.

Lemma read_bits_as_int_value_witness :
  read_bits_as_int 4 {| message := lit "10110"; data := ∅ |}
  = Ok (PInt (bin_value (take 4 (lit "10110"))))
       {| message := drop 4 (lit "10110"); data := ∅ |}
  /\ 0 <= bin_value (take 4 (lit "10110")) < 2 ^ 4.
Proof.
  apply (read_bits_as_int_value 4 {| message := lit "10110"; data := ∅ |}).
  - lia.
  - vm_compute.
    repeat (apply List.Forall_cons; [first [by left | by right] |]).
    apply List.Forall_nil.
  - discriminate.
Defined.

(** X3. Two reads in a row take what one read of the two counts together
    takes: for counts [a, b >= 0], [read_bits a] then [read_bits b] return,
    end to end, the result of [read_bits (a + b)] and leave the same
    state. *)
Theorem read_bits_compose (a b : Z) (st : CANDecoder) :
  0 <= a -> 0 <= b -> read_twice a b st = read_bits (a + b) st.
Proof.
  intros Ha Hb. unfold read_twice, mbind, M_bind.
  rewrite (read_bits_nonneg a), (read_bits_nonneg (a + b)) by lia.
  rewrite read_bits_nonneg by lia. cbn [message data mret M_ret].
  rewrite Z2Nat.inj_add by lia.
  by rewrite take_take_drop, drop_drop.
Qed.

Lemma read_bits_compose_witness :
  read_twice 1 11 {| message := scenario_temperature; data := ∅ |}
  = read_bits 12 {| message := scenario_temperature; data := ∅ |}.
Proof.
  apply (read_bits_compose 1 11
           {| message := scenario_temperature; data := ∅ |}); lia.
Defined.

(** ** More on the constructor *)

Lemma pos_bits_is_bit (p : positive) : Forall is_bit (pos_bits p).
Proof.
  induction p as [p IH | p IH |]; cbn [pos_bits].
  - apply Forall_app. split; [exact IH |]. constructor; [by right | constructor].
  - apply Forall_app. split; [exact IH |]. constructor; [by left | constructor].
  - constructor; [by right | constructor].
Qed.

Lemma pos_bits_value (p : positive) : bin_value (pos_bits p) = Z.pos p.
Proof.
  induction p as [p IH | p IH |]; cbn [pos_bits]; [| | reflexivity].
  - change (lit "1") with ["1"%char]. rewrite bin_value_snoc, IH.
    change (bit_value "1") with 1. lia.
  - change (lit "0") with ["0"%char]. rewrite bin_value_snoc, IH.
    change (bit_value "0") with 0. lia.
Qed.

(** [bin] writes a positive number below [2^k] on at most [k] digits, and
    a number from [2^k] on more than [k] digits. *)
Lemma pos_bits_length (p : positive) :
  2 ^ (Z.of_nat (length (pos_bits p)) - 1) <= Z.pos p
  < 2 ^ Z.of_nat (length (pos_bits p)).
Proof.
  induction p as [p IH | p IH |]; cbn [pos_bits]; [| | done].
  all: rewrite length_app; change (length (lit _)) with 1%nat.
  all: replace (Z.of_nat (length (pos_bits p) + 1) - 1)
         with (Z.succ (Z.of_nat (length (pos_bits p)) - 1)) by lia.
  all: replace (Z.of_nat (length (pos_bits p) + 1))
         with (Z.succ (Z.of_nat (length (pos_bits p)))) by lia.
  all: assert (0 < length (pos_bits p))%nat
         by (destruct p; cbn [pos_bits]; rewrite ?length_app; simpl; lia).
  all: rewrite !Z.pow_succ_r by lia; lia.
Qed.

Lemma pos_bits_length_le (p : positive) (k : nat) :
  (length (pos_bits p) <= k)%nat <-> Z.pos p < 2 ^ Z.of_nat k.
Proof.
  pose proof (pos_bits_length p) as [Hlo Hhi]. split.
  - intros Hle. eapply Z.lt_le_trans; [exact Hhi |].
    apply Z.pow_le_mono_r; lia.
  - intros Hlt. destruct (Nat.le_gt_cases (length (pos_bits p)) k); [done |].
    assert (2 ^ Z.of_nat k <= 2 ^ (Z.of_nat (length (pos_bits p)) - 1))
      by (apply Z.pow_le_mono_r; lia).
    lia.
Qed.

(** X4. The constructor accepts a non-negative integer exactly when it is
    below [2^128]: the message becomes the text of [bin], whose digits
    behind the marker denote the integer.  From [2^128] on it raises
    [MessageLengthException] with the length of that text, as long as the
    integer has at most 4300 decimal digits; a longer integer is refused
    with [ValueError] when line 44 formats it. *)
Theorem init_accepts_below_2_128 (z : Z) :
  0 <= z ->
  (z < 2 ^ 128 ->
   init (MsgInt z) = inr {| message := bin z; data := ∅ |}
   /\ Forall is_bit (drop 2 (bin z))
   /\ bin_value (drop 2 (bin z)) = z)
  /\ (2 ^ 128 <= z < 10 ^ int_max_str_digits ->
      init (MsgInt z)
      = inl (MessageLengthException (Z.of_nat (length (bin z)))))
  /\ (10 ^ int_max_str_digits <= z -> init (MsgInt z) = inl ValueError).
Proof.
  intros Hz. pose proof digit_limit_above_2_128 as Hlimit.
  split; [| split].
  - intros Hsmall. rewrite init_int by lia.
    unfold init_body. cbn [to_binary_text].
    destruct z as [| p | p]; [| | lia].
    + split; [reflexivity |]. split; [| reflexivity].
      constructor; [by left | constructor].
    + cbn [bin]. rewrite length_app. change (length (lit "0b")) with 2%nat.
      change (drop 2 (lit "0b" ++ pos_bits p)) with (pos_bits p).
      pose proof (pos_bits_length_le p 128) as Hiff.
      change (Z.of_nat 128) with 128 in Hiff. apply Hiff in Hsmall.
      destruct (Z.ltb_spec 130 (Z.of_nat (2 + length (pos_bits p)))); [lia |].
      split; [reflexivity |].
      split; [apply pos_bits_is_bit | apply pos_bits_value].
  - intros [Hbig Hfits]. rewrite init_int by lia.
    unfold init_body. cbn [to_binary_text].
    destruct z as [| p | p]; [lia | | lia].
    cbn [bin]. rewrite length_app. change (length (lit "0b")) with 2%nat.
    pose proof (pos_bits_length_le p 128) as Hiff.
    change (Z.of_nat 128) with 128 in Hiff.
    destruct (Z.ltb_spec 130 (Z.of_nat (2 + length (pos_bits p)))); [done |].
    assert (length (pos_bits p) <= 128)%nat as Hle by lia.
    apply Hiff in Hle. lia.
  - intros Hhuge. apply init_int_refused. lia.
Qed.

Lemma init_accepts_below_2_128_witness :
  (2 ^ 127 + 5 < 2 ^ 128 ->
   init (MsgInt (2 ^ 127 + 5))
   = inr {| message := bin (2 ^ 127 + 5); data := ∅ |}
   /\ Forall is_bit (drop 2 (bin (2 ^ 127 + 5)))
   /\ bin_value (drop 2 (bin (2 ^ 127 + 5))) = 2 ^ 127 + 5)
  /\ (2 ^ 128 <= 2 ^ 127 + 5 < 10 ^ int_max_str_digits ->
      init (MsgInt (2 ^ 127 + 5))
      = inl (MessageLengthException
               (Z.of_nat (length (bin (2 ^ 127 + 5))))))
  /\ (10 ^ int_max_str_digits <= 2 ^ 127 + 5 ->
      init (MsgInt (2 ^ 127 + 5)) = inl ValueError).
Proof.
  apply (init_accepts_below_2_128 (2 ^ 127 + 5)). vm_compute. discriminate.
Defined.

(** The message the constructor stores is the text [bin] gives for some
    integer. *)
Lemma to_binary_text_bin (m : raw_message) (t : str) :
  to_binary_text m = inr t -> exists z, t = bin z.
Proof.
  destruct m as [s | z]; cbn [to_binary_text].
  - destruct (py_int 2 s) as [z |]; [intros [= <-]; eauto |].
    destruct (py_int 10 s) as [z |]; [intros [= <-]; eauto | discriminate].
  - intros [= <-]. eauto.
Qed.

(** On the text of a negative number the field walk stops at its first
    read: the character after the two that are stripped is the [b] of the
    marker. *)
Lemma walk_negative (p : positive) (d : gmap string pyval) :
  _decode_can_message {| message := bin (Z.neg p); data := d |}
  = Raise ValueError {| message := pos_bits p; data := d |}.
Proof. reflexivity. Qed.

(** A message with a negative value that reaches the length check: it is
    refused there when its text is too long, and otherwise at the first
    read of the field walk. *)
Lemma negative_body (m : raw_message) (z : Z) :
  init m = init_body m ->
  to_binary_text m = inr (bin z) -> z < 0 ->
  (- 2 ^ 127 < z ->
   decode_full m = inl ValueError /\ decode m = inl ValueError)
  /\ (z <= - 2 ^ 127 ->
      decode_full m = inl (MessageLengthException (Z.of_nat (length (bin z))))
      /\ decode m = inl (MessageLengthException (Z.of_nat (length (bin z))))).
Proof.
  intros Hinit Htext Hz. destruct z as [| p | p]; [lia | lia |].
  unfold decode_full, decode, run. rewrite Hinit. unfold init_body.
  rewrite Htext.
  cbn [bin]. rewrite length_app. change (length (lit "-0b")) with 3%nat.
  pose proof (pos_bits_length_le p 127) as Hiff.
  change (Z.of_nat 127) with 127 in Hiff.
  split.
  - intros Hsmall.
    assert (length (pos_bits p) <= 127)%nat as Hle by (apply Hiff; lia).
    destruct (Z.ltb_spec 130 (Z.of_nat (3 + length (pos_bits p)))); [lia |].
    unfold decode_can_message_full_dict, decode_can_message, mbind, M_bind.
    change (lit "-0b" ++ pos_bits p) with (bin (Z.neg p)).
    by rewrite walk_negative.
  - intros Hbig.
    destruct (Z.ltb_spec 130 (Z.of_nat (3 + length (pos_bits p)))); [done |].
    assert (length (pos_bits p) <= 127)%nat as Hle by lia.
    apply Hiff in Hle. lia.
Qed.

(** X5. A message with a negative value is never decoded.  The text of
    [bin] starts with a minus sign, so the two characters stripped as the
    marker are ["-0"] and the first read meets the letter [b]: [decode] and
    [decode_full] raise [ValueError] when the value is above [-2^127].
    At or below [-2^127] the constructor raises [MessageLengthException],
    for text that stands for the value and for an integer of at most 4300
    decimal digits; a longer integer is refused with [ValueError] when
    line 44 formats it. *)
Theorem negative_message_fails (z : Z) (s : str) :
  z < 0 ->
  ((- 2 ^ 127 < z ->
    decode_full (MsgInt z) = inl ValueError
    /\ decode (MsgInt z) = inl ValueError)
   /\ (- 10 ^ int_max_str_digits < z <= - 2 ^ 127 ->
       decode_full (MsgInt z)
       = inl (MessageLengthException (Z.of_nat (length (bin z))))
       /\ decode (MsgInt z)
          = inl (MessageLengthException (Z.of_nat (length (bin z)))))
   /\ (z <= - 10 ^ int_max_str_digits ->
       decode_full (MsgInt z) = inl ValueError
       /\ decode (MsgInt z) = inl ValueError))
  /\ (to_binary_text (MsgStr s) = inr (bin z) ->
      (- 2 ^ 127 < z ->
       decode_full (MsgStr s) = inl ValueError
       /\ decode (MsgStr s) = inl ValueError)
      /\ (z <= - 2 ^ 127 ->
          decode_full (MsgStr s)
          = inl (MessageLengthException (Z.of_nat (length (bin z))))
          /\ decode (MsgStr s)
             = inl (MessageLengthException (Z.of_nat (length (bin z)))))).
Proof.
  intros Hz. pose proof digit_limit_above_2_128 as Hlimit. split.
  - split; [| split].
    + intros Hsmall.
      assert (Hinit : init (MsgInt z) = init_body (MsgInt z))
        by (apply init_int; lia).
      exact (proj1 (negative_body (MsgInt z) z Hinit eq_refl Hz) Hsmall).
    + intros [Hfits Hbig].
      assert (Hinit : init (MsgInt z) = init_body (MsgInt z))
        by (apply init_int; lia).
      exact (proj2 (negative_body (MsgInt z) z Hinit eq_refl Hz) Hbig).
    + intros Hhuge.
      assert (Hinit : init (MsgInt z) = inl ValueError)
        by (apply init_int_refused; lia).
      unfold decode_full, decode, run. rewrite Hinit. split; reflexivity.
  - intros Htext.
    exact (negative_body (MsgStr s) z (init_text s) Htext Hz).
Qed.

Lemma negative_message_fails_witness :
  decode_full (MsgInt (-5)) = inl ValueError
  /\ decode (MsgInt (-5)) = inl ValueError
  /\ decode_full (MsgStr (lit "-101")) = inl ValueError
  /\ decode (MsgStr (lit "-101")) = inl ValueError.
Proof.
  assert (Hneg : -5 < 0) by lia.
  destruct (negative_message_fails (-5) (lit "-101") Hneg)
    as [(Hint & _) Htext].
  destruct Hint as [H1 H2]; [vm_compute; reflexivity |].
  destruct Htext as [(H3 & H4) _];
    [vm_compute; reflexivity | vm_compute; reflexivity |].
  split; [exact H1 |]. split; [exact H2 |]. split; [exact H3 | exact H4].
Defined.

(** ** Text read in base ten *)

Lemma decimal_digit_facts (c : ascii) :
  is_decimal_digit c ->
  is_space c = false /\ is_underscore c = false
  /\ digit_value c = Some (char_code c - 48)
  /\ (char_code c =? 43) = false /\ (char_code c =? 45) = false
  /\ (char_code c =? 98) = false /\ (char_code c =? 66) = false.
Proof.
  unfold is_decimal_digit, is_space, is_underscore, digit_value.
  intros [Hlo Hhi]. cbv zeta.
  rewrite (proj2 (Z.leb_le 48 _) Hlo), (proj2 (Z.leb_le _ 57) Hhi).
  repeat split; try (apply Z.eqb_neq; lia); try reflexivity.
  rewrite !orb_false_iff, andb_false_iff.
  repeat split; try (apply Z.eqb_neq; lia).
  right. apply Z.leb_gt. lia.
Qed.

Lemma dec_value_acc (s : str) (acc : Z) :
  Forall is_decimal_digit s ->
  scan_digits 10 false acc s
  = Some (fold_left (fun a c => a * 10 + (char_code c - 48)) s acc, []).
Proof.
  intros Hs. revert acc. induction Hs as [| c s Hc _ IH]; intros acc.
  - reflexivity.
  - destruct (decimal_digit_facts c Hc) as (_ & Hus & Hdv & _).
    cbn [scan_digits fold_left]. rewrite Hus, Hdv.
    destruct (Z.ltb_spec (char_code c - 48) 10) as [_ | Hge];
      [apply IH | unfold is_decimal_digit in Hc; lia].
Qed.

Lemma skip_prefix_digits (base : Z) (c : ascii) (s : str) :
  Forall is_decimal_digit (c :: s) -> skip_prefix base (c :: s) = c :: s.
Proof.
  intros Hs. destruct s as [| b s]; [reflexivity |].
  inversion Hs as [| ? ? _ Hs']; subst.
  inversion Hs' as [| ? ? Hb _]; subst.
  destruct (decimal_digit_facts b Hb) as (_ & _ & _ & _ & _ & Hb1 & Hb2).
  cbn [skip_prefix]. rewrite Hb1, Hb2.
  by rewrite orb_false_r, andb_false_r.
Qed.

(** [int(s)] on a non-empty string of decimal digits: the value of the
    digits when there are at most [int_max_str_digits] of them, and a
    refusal otherwise. *)
Lemma digits_scanned_all (s : str) :
  Forall is_decimal_digit s -> digits_scanned s [] = Z.of_nat (length s).
Proof.
  intros Hs. unfold digits_scanned. cbn [length]. rewrite Nat.sub_0_r.
  rewrite firstn_all. f_equal.
  induction Hs as [| c s Hc _ IH]; [done |].
  destruct (decimal_digit_facts c Hc) as (_ & Hus & _).
  cbn [List.filter]. rewrite Hus. cbn [negb length]. by rewrite IH.
Qed.

Lemma py_int_decimal_cases (s : str) :
  s <> [] -> Forall is_decimal_digit s ->
  py_int 10 s
  = if int_max_str_digits <? Z.of_nat (length s) then None
    else Some (dec_value s).
Proof.
  intros Hne Hs. destruct s as [| c s]; [done |].
  pose proof (dec_value_acc (c :: s) 0 Hs) as Hscan.
  pose proof (skip_prefix_digits 10 c s Hs) as Hpre.
  pose proof (digits_scanned_all (c :: s) Hs) as Hcount.
  inversion Hs as [| ? ? Hc _]; subst.
  destruct (decimal_digit_facts c Hc) as (Hsp & Hus & _ & Hplus & Hminus & _).
  unfold py_int. cbn [skip_spaces read_sign].
  rewrite Hsp. cbn [read_sign]. rewrite Hplus, Hminus, Hpre, Hus, Hscan.
  unfold exceeds_digit_limit. rewrite Hcount.
  change (is_binary_base 10) with false. cbn [negb andb].
  by destruct (int_max_str_digits <? Z.of_nat (length (c :: s))).
Qed.

Lemma py_int_decimal (s : str) :
  s <> [] -> Forall is_decimal_digit s ->
  Z.of_nat (length s) <= int_max_str_digits ->
  py_int 10 s = Some (dec_value s).
Proof.
  intros Hne Hs Hlen. rewrite py_int_decimal_cases by done.
  by destruct (Z.ltb_spec int_max_str_digits (Z.of_nat (length s))); [lia |].
Qed.

(** In base two the scan of a string of decimal digits stops at its first
    digit above 1, which is left unread. *)
Lemma scan_stops_at_decimal (s : str) (acc : Z) :
  Forall is_decimal_digit s ->
  Exists (fun c => 50 <= char_code c) s ->
  exists v c rest,
    scan_digits 2 false acc s = Some (v, c :: rest)
    /\ is_decimal_digit c.
Proof.
  intros Hs. revert acc. induction Hs as [| c s Hc Hs IH]; intros acc Hex.
  - inversion Hex.
  - destruct (decimal_digit_facts c Hc) as (_ & Hus & Hdv & _).
    cbn [scan_digits]. rewrite Hus, Hdv.
    destruct (Z.ltb_spec (char_code c - 48) 2) as [Hlt | Hge].
    + apply IH. inversion Hex as [? ? Hbig | ? ? Htail]; subst; [lia | done].
    + by exists acc, c, s.
Qed.

Lemma py_int_binary_refuses_decimal (s : str) :
  Forall is_decimal_digit s ->
  Exists (fun c => 50 <= char_code c) s ->
  py_int 2 s = None.
Proof.
  intros Hs Hex. destruct s as [| c s]; [inversion Hex |].
  destruct (scan_stops_at_decimal (c :: s) 0 Hs Hex)
    as (v & c' & rest & Hscan & Hc').
  pose proof (skip_prefix_digits 2 c s Hs) as Hpre.
  inversion Hs as [| ? ? Hc _]; subst.
  destruct (decimal_digit_facts c Hc) as (Hsp & Hus & _ & Hplus & Hminus & _).
  destruct (decimal_digit_facts c' Hc') as (Hsp' & _).
  unfold py_int. cbn [skip_spaces read_sign].
  rewrite Hsp. cbn [read_sign]. rewrite Hplus, Hminus, Hpre, Hus, Hscan.
  unfold exceeds_digit_limit. change (is_binary_base 2) with true.
  cbn [negb andb skip_spaces]. rewrite Hsp'. by case_match.
Qed.

(** The value of a string of decimal digits is below the power of ten of
    its length. *)
Lemma dec_value_snoc (s : str) (c : ascii) :
  dec_value (s ++ [c]) = dec_value s * 10 + (char_code c - 48).
Proof. unfold dec_value. by rewrite fold_left_app. Qed.

Lemma dec_value_bound (s : str) :
  Forall is_decimal_digit s ->
  0 <= dec_value s < 10 ^ Z.of_nat (length s).
Proof.
  induction s as [| c s IH] using rev_ind; intros Hs.
  - vm_compute. split; [discriminate | reflexivity].
  - apply Forall_app in Hs as [Hs Hc].
    inversion Hc as [| ? ? Hc' _]; subst. unfold is_decimal_digit in Hc'.
    specialize (IH Hs). rewrite dec_value_snoc, length_app.
    change (length [c]) with 1%nat.
    rewrite Nat2Z.inj_add, Z.pow_add_r by lia. change (10 ^ Z.of_nat 1) with 10.
    lia.
Qed.

(** X6. Text is read in base two first and in base ten only when that
    fails: a string of decimal digits with a digit above 1 stands for its
    decimal value when it has at most 4300 digits, and the constructor
    builds the state it builds for that integer; with more digits [int]
    refuses the text and both decode methods raise [ValueError]. *)
Theorem decimal_text_read_in_base_ten (s : str) :
  Forall is_decimal_digit s ->
  Exists (fun c => 50 <= char_code c) s ->
  (Z.of_nat (length s) <= int_max_str_digits ->
   to_binary_text (MsgStr s) = inr (bin (dec_value s))
   /\ init (MsgStr s) = init (MsgInt (dec_value s))
   /\ decode (MsgStr s) = decode (MsgInt (dec_value s))
   /\ decode_full (MsgStr s) = decode_full (MsgInt (dec_value s)))
  /\ (int_max_str_digits < Z.of_nat (length s) ->
      decode (MsgStr s) = inl ValueError
      /\ decode_full (MsgStr s) = inl ValueError).
Proof.
  intros Hs Hex.
  assert (Hne : s <> []) by (intros ->; inversion Hex).
  assert (Hbin : py_int 2 s = None)
    by (by apply py_int_binary_refuses_decimal).
  pose proof (py_int_decimal_cases s Hne Hs) as Hdec.
  split.
  - intros Hlen.
    destruct (Z.ltb_spec int_max_str_digits (Z.of_nat (length s))); [lia |].
    assert (Htext : to_binary_text (MsgStr s) = inr (bin (dec_value s))).
    { cbn [to_binary_text]. by rewrite Hbin, Hdec. }
    assert (Hinit : init (MsgStr s) = init (MsgInt (dec_value s))).
    { rewrite init_text, init_int.
      - unfold init_body. by rewrite Htext.
      - pose proof (dec_value_bound s Hs) as [Hlo Hhi].
        assert (10 ^ Z.of_nat (length s) <= 10 ^ int_max_str_digits)
          by (apply Z.pow_le_mono_r; lia).
        lia. }
    split; [exact Htext |]. split; [exact Hinit |].
    split; apply run_init; exact Hinit.
  - intros Hlen.
    destruct (Z.ltb_spec int_max_str_digits (Z.of_nat (length s))); [| lia].
    assert (Hinit : init (MsgStr s) = inl ValueError).
    { rewrite init_text. unfold init_body. cbn [to_binary_text].
      by rewrite Hbin, Hdec. }
    unfold decode, decode_full, run. rewrite Hinit. split; reflexivity.
Qed.

Lemma decimal_text_read_in_base_ten_witness :
  to_binary_text (MsgStr (lit "102")) = inr (bin (dec_value (lit "102")))
  /\ init (MsgStr (lit "102")) = init (MsgInt (dec_value (lit "102")))
  /\ decode (MsgStr (lit "102")) = decode (MsgInt (dec_value (lit "102")))
  /\ decode_full (MsgStr (lit "102"))
     = decode_full (MsgInt (dec_value (lit "102"))).
Proof.
  assert (Hdigits : Forall is_decimal_digit (lit "102")).
  { repeat (apply List.Forall_cons;
            [unfold is_decimal_digit; vm_compute; split; discriminate |]).
    apply List.Forall_nil. }
  assert (Hexists : Exists (fun c => 50 <= char_code c) (lit "102")).
  { apply List.Exists_cons_tl, List.Exists_cons_tl, List.Exists_cons_hd.
    vm_compute. discriminate. }
  destruct (decimal_text_read_in_base_ten (lit "102") Hdigits Hexists)
    as [Hshort _].
  apply Hshort. vm_compute. discriminate.
Defined.

(** ** What the field walk returns and raises *)

(** How the field walk ends from any state: it returns a dictionary that
    holds the key ["data"], or raises [ValueError] or
    [NotImplementedError]. *)
Lemma walk_outcome (st : CANDecoder) :
  wp _decode_can_message
     (fun r _ => is_Some (r.2 !! "data") /\ r.2 <> ∅)
     (fun e _ => e = ValueError \/ e = NotImplementedError) st.
Proof.
  unfold _decode_can_message. wp_walk; auto.
  all: cbn [snd]; split; [| apply insert_non_empty].
  all: repeat (rewrite lookup_insert_ne by done); rewrite lookup_insert_eq.
  all: eauto.
Qed.

(** X7. [decode_can_message] is [decode_can_message_full_dict] followed by
    the lookup of ["data"]: when the full decode returns a sensor and a
    dictionary, the dictionary has the key ["data"] and [decode] returns
    the sensor with that value; when the full decode raises, [decode]
    raises the same exception.  The branch that returns [(None, None)] is
    never taken. *)
Theorem decode_returns_data_of_full (m : raw_message) :
  match decode_full m with
  | inr (s, d) => exists v, d !! "data" = Some v /\ decode m = inr (Some s, v)
  | inl e => decode m = inl e
  end
  /\ forall v, decode m <> inr (None, v).
Proof.
  unfold decode, decode_full, run, decode_can_message_full_dict,
    decode_can_message, mbind, M_bind.
  destruct (init m) as [e | st]; [by split |].
  pose proof (wp_elim _ _ _ _ (walk_outcome st)) as Hwalk.
  destruct (_decode_can_message st) as [[s d] st' | e st']; [| by split].
  cbn [snd] in Hwalk. destruct Hwalk as [[v Hv] Hne].
  rewrite bool_decide_eq_false_2 by done. rewrite Hv.
  split; [by exists v | discriminate].
Qed.

(** X8. The exceptions of [decode] and [decode_full] are [ValueError],
    [NotImplementedError] and [MessageLengthException] with a length above
    130; [InvalidBitException] is never raised, nor is a missing key or a
    type error. *)
Theorem decode_exceptions (m : raw_message) (e : exn) :
  decode m = inl e \/ decode_full m = inl e ->
  e = ValueError \/ e = NotImplementedError
  \/ exists n, 130 < n /\ e = MessageLengthException n.
Proof.
  unfold decode, decode_full, run, decode_can_message_full_dict,
    decode_can_message, mbind, M_bind.
  destruct (init m) as [e' | st] eqn:Hinit.
  - intros [[= <-] | [= <-]].
    all: destruct (init_exceptions m e' Hinit) as [-> | (n & Hn & ->)]; eauto.
  - pose proof (wp_elim _ _ _ _ (walk_outcome st)) as Hwalk.
    destruct (_decode_can_message _) as [[s d] st' | e' st'].
    + cbn [snd] in Hwalk. destruct Hwalk as [[v Hv] Hne].
      rewrite bool_decide_eq_false_2 by done. rewrite Hv.
      intros [? | ?]; discriminate.
    + intros [[= <-] | [= <-]]; destruct Hwalk as [-> | ->]; auto.
Qed.

Lemma decode_exceptions_witness :
  NotImplementedError = ValueError
  \/ NotImplementedError = NotImplementedError
  \/ exists n, 130 < n /\ NotImplementedError = MessageLengthException n.
Proof.
  apply (decode_exceptions (MsgStr scenario_temperature)).
  left. vm_compute. reflexivity.
Defined.

(** The keys a successful field walk leaves in a dictionary that was
    empty are the fifteen keys of a frame. *)
Lemma walk_keys (st : CANDecoder) :
  data st = ∅ ->
  wp _decode_can_message (fun r _ => dom r.2 = frame_keys) (fun _ _ => True) st.
Proof.
  intros Hdata. unfold _decode_can_message. wp_walk; auto.
  all: cbn [snd]; rewrite Hdata; reflexivity.
Qed.

(** X9. The dictionary of a decoded message has exactly the fifteen keys
    of a frame, for standard and extended frames alike, and with or
    without data bytes. *)
Theorem decoded_keys (m : raw_message) (s : SensorType)
    (d : gmap string pyval) :
  decode_full m = inr (s, d) -> dom d = frame_keys.
Proof.
  unfold decode_full, run, decode_can_message_full_dict.
  destruct (init m) as [e | st] eqn:Hinit; [discriminate |].
  pose proof (init_length m st Hinit) as [_ Hdata].
  pose proof (wp_elim _ _ _ _ (walk_keys st Hdata)) as Hwalk.
  destruct (_decode_can_message st) as [[s' d'] st' | e st']; [| discriminate].
  intros [= -> ->]. exact Hwalk.
Qed.

Lemma decoded_keys_witness : dom (frame_dict frame_extended) = frame_keys.
Proof.
  apply (decoded_keys (MsgStr (layout frame_extended)) WheelSpeedSensor).
  reflexivity.
Defined.

(** ** The values of a decoded frame *)

Lemma Forall_slice_from {P : ascii -> Prop} (n : Z) (x : str) :
  Forall P x -> Forall P (slice_from n x).
Proof. intros Hx. unfold slice_from. case_match; by apply Forall_drop. Qed.

(** A slice of binary digits that [int(_, 2)] accepts is not empty, and
    its value fits the number of bits asked for. *)
Lemma py_int_slice_range (x : str) (n z : Z) :
  Forall is_bit x -> 0 <= n ->
  py_int 2 (slice_to n x) = Some z ->
  0 <= z < 2 ^ n /\ x <> [].
Proof.
  intros Hx Hn. rewrite slice_to_nonneg by done. intros Hint.
  assert (Hne : take (Z.to_nat n) x <> []).
  { intros Hnil. rewrite Hnil in Hint. discriminate Hint. }
  assert (Hx' : x <> []).
  { intros ->. by rewrite take_nil in Hne. }
  rewrite py_int_bits in Hint; [| done | by apply Forall_take].
  injection Hint as <-. split; [| done].
  split; [apply bin_value_nonneg |].
  eapply Z.lt_le_trans; [apply bin_value_bound |].
  apply Z.pow_le_mono_r; [lia |]. rewrite length_take. lia.
Qed.

Lemma sensor_lookup_inside (id : Z) (s : SensorType) :
  sensor_lookup (PInt id) = Some s ->
  1 <= id <= 5 /\ ID_TO_SENSOR_MAP !! id = Some s.
Proof.
  intros Hs. split; [| exact Hs].
  destruct (decide (1 <= id <= 5)) as [Hin | Hout]; [done |].
  by rewrite sensor_lookup_outside in Hs.
Qed.

(** After the constructor, a state from which the field walk returns holds
    binary digits behind the marker and an empty dictionary. *)
Lemma init_bits (m : raw_message) (st : CANDecoder) r st' :
  init m = inr st -> _decode_can_message st = Ok r st' ->
  Forall is_bit (slice_from 2 (message st)) /\ data st = ∅.
Proof.
  unfold init, init_body. destruct (debug_format m); [done |].
  destruct (to_binary_text m) as [e | t] eqn:Htext; [done |].
  destruct (130 <? Z.of_nat (length t)); [done |].
  intros [= <-]. cbn [message data].
  destruct (to_binary_text_bin m t Htext) as [z ->].
  destruct z as [| p | p].
  - intros _. split; [| done]. constructor; [by left | constructor].
  - intros _. split; [| done]. apply pos_bits_is_bit.
  - by rewrite walk_negative.
Qed.

Ltac slice_bits :=
  repeat first [ assumption | apply Forall_slice_from ].

Ltac field_ranges :=
  repeat match goal with
         | H : py_int 2 (slice_to ?n ?x) = Some ?z |- _ =>
             let Hr := fresh "Hrange" in
             assert (Hr : 0 <= z < 2 ^ n /\ x <> [])
               by (apply py_int_slice_range; [slice_bits | lia | exact H]);
             clear H
         | H : sensor_lookup (PInt _) = Some _ |- _ =>
             apply sensor_lookup_inside in H
         end.

Ltac solve_field :=
  unfold field_in; eexists; split;
  [ solve_lookup | first [ tauto | lia ] ].

(** The values a successful field walk stores, when the message holds
    binary digits behind the marker. *)
Lemma walk_ranges (st : CANDecoder) :
  Forall is_bit (slice_from 2 (message st)) ->
  wp _decode_can_message
     (fun r _ =>
        let d := r.2 in
        field_in d "sof" 1
        /\ (exists id, d !! "can_id" = Some (PInt id) /\ 1 <= id <= 5
                       /\ ID_TO_SENSOR_MAP !! id = Some r.1)
        /\ field_in d "rtr" 1
        /\ field_in d "ide" 1
        /\ (d !! "srr" = Some PNone \/ field_in d "srr" 1)
        /\ (d !! "extended_can_id" = Some PNone
            \/ field_in d "extended_can_id" 18)
        /\ field_in d "r0" 1
        /\ (exists dlc,
              d !! "data_length_code" = Some (PInt dlc) /\ 0 <= dlc <= 15
              /\ (dlc = 0 -> d !! "data" = Some PNone)
              /\ (dlc <> 0 -> field_in d "data" (8 * dlc)))
        /\ field_in d "crc_segment" 15
        /\ field_in d "crc_delimiter" 1
        /\ field_in d "ack_bit" 1
        /\ field_in d "ack_delimiter" 1
        /\ field_in d "end_of_frame" 7
        /\ field_in d "interframe_space" 3)
     (fun _ _ => True) st.
Proof.
  intros Hbits. unfold _decode_can_message. wp_walk; auto.
  all: field_ranges; cbn [fst snd].
  all: repeat match goal with
              | |- _ /\ _ => split
              end.
  all: try solve_field.
  all: try (left; solve_lookup).
  all: try (right; solve_field).
  all: eexists; split; [solve_lookup |].
  all: change (2 ^ 4) with 16 in *.
  all: split; [lia |].
  all: split; intros Hdlc; first [ lia | solve_lookup | idtac ].
  all: unfold field_in; eexists; split; [solve_lookup |].
  all: match goal with
       | |- 0 <= _ < 2 ^ (8 * ?n) =>
           replace (8 * n) with (n * 8) by lia; tauto
       end.
Qed.

(** X10. Every field of a decoded message is an unsigned number that fits
    the width of its field: one bit for the flags, the table ids 1 to 5 for
    the arbitration id, whose table entry is the sensor returned, 0 to 15
    for the data length code, [8 * dlc] bits for the data, which is [None]
    exactly when the code is 0, 15 bits for the CRC, 7 for the end of
    frame and 3 for the interframe space. *)
Theorem decoded_fields_in_range (m : raw_message) (s : SensorType)
    (d : gmap string pyval) :
  decode_full m = inr (s, d) ->
  field_in d "sof" 1
  /\ (exists id, d !! "can_id" = Some (PInt id) /\ 1 <= id <= 5
                 /\ ID_TO_SENSOR_MAP !! id = Some s)
  /\ field_in d "rtr" 1
  /\ field_in d "ide" 1
  /\ (d !! "srr" = Some PNone \/ field_in d "srr" 1)
  /\ (d !! "extended_can_id" = Some PNone \/ field_in d "extended_can_id" 18)
  /\ field_in d "r0" 1
  /\ (exists dlc,
        d !! "data_length_code" = Some (PInt dlc) /\ 0 <= dlc <= 15
        /\ (dlc = 0 -> d !! "data" = Some PNone)
        /\ (dlc <> 0 -> field_in d "data" (8 * dlc)))
  /\ field_in d "crc_segment" 15
  /\ field_in d "crc_delimiter" 1
  /\ field_in d "ack_bit" 1
  /\ field_in d "ack_delimiter" 1
  /\ field_in d "end_of_frame" 7
  /\ field_in d "interframe_space" 3.
Proof.
  unfold decode_full, run, decode_can_message_full_dict.
  destruct (init m) as [e | st] eqn:Hinit; [discriminate |].
  destruct (_decode_can_message st) as [[s' d'] st' | e st'] eqn:Hwalked;
    [| discriminate].
  destruct (init_bits m st _ _ Hinit Hwalked) as [Hbits _].
  pose proof (wp_elim _ _ _ _ (walk_ranges st Hbits)) as Hwalk.
  rewrite Hwalked in Hwalk. intros [= -> ->]. exact Hwalk.
Qed.

Lemma decoded_fields_in_range_witness :
  let d := frame_dict frame_extended in
  field_in d "sof" 1
  /\ (exists id, d !! "can_id" = Some (PInt id) /\ 1 <= id <= 5
                 /\ ID_TO_SENSOR_MAP !! id = Some WheelSpeedSensor)
  /\ field_in d "rtr" 1
  /\ field_in d "ide" 1
  /\ (d !! "srr" = Some PNone \/ field_in d "srr" 1)
  /\ (d !! "extended_can_id" = Some PNone \/ field_in d "extended_can_id" 18)
  /\ field_in d "r0" 1
  /\ (exists dlc,
        d !! "data_length_code" = Some (PInt dlc) /\ 0 <= dlc <= 15
        /\ (dlc = 0 -> d !! "data" = Some PNone)
        /\ (dlc <> 0 -> field_in d "data" (8 * dlc)))
  /\ field_in d "crc_segment" 15
  /\ field_in d "crc_delimiter" 1
  /\ field_in d "ack_bit" 1
  /\ field_in d "ack_delimiter" 1
  /\ field_in d "end_of_frame" 7
  /\ field_in d "interframe_space" 3.
Proof.
  apply (decoded_fields_in_range (MsgStr (layout frame_extended))
           WheelSpeedSensor).
  reflexivity.
Defined.

(** ** The bits a decoded frame takes *)

(** Where a successful field walk leaves the cursor, when the message
    holds binary digits behind the marker. *)
Lemma walk_consumed (st : CANDecoder) :
  Forall is_bit (slice_from 2 (message st)) ->
  wp _decode_can_message
     (fun r st' =>
        exists ide dlc,
          r.2 !! "ide" = Some (PInt ide)
          /\ r.2 !! "data_length_code" = Some (PInt dlc)
          /\ message st'
             = drop (Z.to_nat (47 + 19 * ide + 8 * dlc))
                 (drop 2 (message st))
          /\ 45 + 19 * ide + 8 * dlc
             <= Z.of_nat (length (drop 2 (message st)))
          /\ data st' = r.2)
     (fun _ _ => True) st.
Proof.
  intros Hbits. unfold _decode_can_message. wp_walk; auto.
  all: field_ranges; cbn [fst snd].
  all: change (2 ^ 1) with 2 in *; change (2 ^ 4) with 16 in *.
  all: eexists _, _; split; [solve_lookup |]; split; [solve_lookup |].
  all: rewrite ?slice_from_nonneg in * by lia.
  all: rewrite ?drop_drop in *.
  all: split; [f_equal; lia |]; split; [| reflexivity].
  all: match goal with
       | H : _ /\ drop ?k ?msg <> [] |- _ <= Z.of_nat (length (drop _ ?msg)) =>
           lazymatch k with
           | context [Z.to_nat 7] =>
               destruct H as [_ H];
               assert (0 < length (drop k msg))%nat
                 by (destruct (drop k msg); [done | simpl; lia]);
               rewrite length_drop in *; lia
           end
       end.
Qed.

(** X11. The field walk of a decoded message takes 47 bits, 19 more in an
    extended frame, and 8 for each data byte, and leaves the rest of the
    message in the decoder; the message must hold at least 45 bits beside
    those of the extension and of the data, that is all but the last two
    bits of the interframe space. *)
Theorem walk_consumes_frame (m : raw_message) (st st' : CANDecoder)
    (s : SensorType) (d : gmap string pyval) :
  init m = inr st ->
  _decode_can_message st = Ok (s, d) st' ->
  exists ide dlc,
    d !! "ide" = Some (PInt ide)
    /\ d !! "data_length_code" = Some (PInt dlc)
    /\ message st'
       = drop (Z.to_nat (47 + 19 * ide + 8 * dlc)) (drop 2 (message st))
    /\ 45 + 19 * ide + 8 * dlc <= Z.of_nat (length (drop 2 (message st)))
    /\ data st' = d.
Proof.
  intros Hinit Hwalked.
  destruct (init_bits m st _ _ Hinit Hwalked) as [Hbits _].
  pose proof (wp_elim _ _ _ _ (walk_consumed st Hbits)) as Hwalk.
  by rewrite Hwalked in Hwalk.
Qed.

Lemma walk_consumes_frame_witness :
  exists ide dlc,
    frame_dict frame_extended !! "ide" = Some (PInt ide)
    /\ frame_dict frame_extended !! "data_length_code" = Some (PInt dlc)
    /\ lit "0101"
       = drop (Z.to_nat (47 + 19 * ide + 8 * dlc))
           (drop 2 (lit "0b" ++ layout frame_extended ++ lit "0101"))
    /\ 45 + 19 * ide + 8 * dlc
       <= Z.of_nat
            (length (drop 2 (lit "0b" ++ layout frame_extended ++ lit "0101")))
    /\ frame_dict frame_extended = frame_dict frame_extended.
Proof.
  apply (walk_consumes_frame
           (MsgStr (layout frame_extended ++ lit "0101"))
           {| message := lit "0b" ++ layout frame_extended ++ lit "0101";
              data := ∅ |}
           {| message := lit "0101"; data := frame_dict frame_extended |}
           WheelSpeedSensor (frame_dict frame_extended)).
  - vm_compute. reflexivity.
  - reflexivity.
Defined.

(** ** Bits after the frame, and frames cut short *)

(** The constructor keeps a string of binary digits that starts with a 1
    as it is, behind the marker, when it has at most 128 digits. *)
Lemma init_leading_one (t : str) :
  Forall is_bit t -> (length ("1"%char :: t) <= 128)%nat ->
  init (MsgStr ("1"%char :: t))
  = inr {| message := lit "0b" ++ "1"%char :: t; data := ∅ |}.
Proof.
  intros Ht Hlen. rewrite init_text. unfold init_body.
  rewrite to_binary_text_bits.
  - rewrite bin_leading_one by done.
    rewrite length_app. change (length (lit "0b")) with 2%nat.
    destruct (Z.ltb_spec 130 (Z.of_nat (2 + length ("1"%char :: t))));
      [lia | done].
  - done.
  - constructor; [by right | done].
Qed.

Lemma walk_layout_trailing (f : Frame) (sensor : SensorType) (extra : str) :
  fields_in_range f ->
  1 <= data_length_code f ->
  ID_TO_SENSOR_MAP !! arbitration_id f = Some sensor ->
  wp _decode_can_message
     (fun r st' =>
        r = (sensor, frame_dict f)
        /\ st' = {| message := extra; data := frame_dict f |})
     (fun _ _ => False)
     {| message := lit "0b" ++ layout f ++ extra; data := ∅ |}.
Proof.
  intros (Hsof & Hid & Hrtr & Hext & Hr0 & Hdlc & Hdata & Hcrc & Hcd
          & Hack & Had & Heof & Hifs) Hlen Hsensor.
  assert (Hwidth : data_length_code f * 8
                   = Z.of_nat (8 * Z.to_nat (data_length_code f))) by lia.
  assert (Hdata' : in_width (Z.of_nat (8 * Z.to_nat (data_length_code f)))
                     (data_field f)).
  { rewrite <- Hwidth. by rewrite Z.mul_comm. }
  unfold _decode_can_message, frame_dict, identifier_extension, layout.
  destruct (extension f) as [[srr ext] |].
  - destruct Hext as [Hsrr Hext]. rewrite <- !app_assoc.
    repeat wp_layout_step. rewrite Hwidth. repeat wp_layout_step.
    split; reflexivity.
  - rewrite <- !app_assoc.
    repeat wp_layout_step. rewrite Hwidth. repeat wp_layout_step.
    split; reflexivity.
Qed.

(** X12. Bits that follow the interframe space are ignored.  For a frame
    as in the round trip (field values within their widths, start of frame
    bit 1, at least one data byte, an id of the table), the layout followed
    by any binary digits, 128 bits at most in all, decodes to the frame,
    and the digits that followed are what the walk leaves in the
    decoder. *)
Theorem trailing_bits_ignored (f : Frame) (sensor : SensorType)
    (extra : str) :
  fields_in_range f ->
  start_of_frame f = 1 ->
  1 <= data_length_code f ->
  ID_TO_SENSOR_MAP !! arbitration_id f = Some sensor ->
  Forall is_bit extra ->
  (length (layout f ++ extra) <= 128)%nat ->
  decode_full (MsgStr (layout f ++ extra)) = inr (sensor, frame_dict f)
  /\ _decode_can_message
       {| message := lit "0b" ++ layout f ++ extra; data := ∅ |}
     = Ok (sensor, frame_dict f)
          {| message := extra; data := frame_dict f |}.
Proof.
  intros Hrange Hsof Hdlc Hsensor Hextra Hlen.
  destruct (layout_leading_one f Hsof) as (t & Hlay & Ht).
  assert (Hinit : init (MsgStr (layout f ++ extra))
                  = inr {| message := lit "0b" ++ layout f ++ extra;
                           data := ∅ |}).
  { rewrite Hlay in *. rewrite <- app_comm_cons in *.
    apply init_leading_one; [by apply Forall_app | done]. }
  pose proof (wp_elim _ _ _ _
    (walk_layout_trailing f sensor extra Hrange Hdlc Hsensor)) as Hwalk.
  unfold decode_full, run, decode_can_message_full_dict. rewrite Hinit.
  destruct (_decode_can_message _) as [r st' | e st']; [| done].
  by destruct Hwalk as [-> ->].
Qed.

Lemma trailing_bits_ignored_witness :
  decode_full (MsgStr (layout frame_extended ++ lit "0101"))
  = inr (WheelSpeedSensor, frame_dict frame_extended)
  /\ _decode_can_message
       {| message := lit "0b" ++ layout frame_extended ++ lit "0101";
          data := ∅ |}
     = Ok (WheelSpeedSensor, frame_dict frame_extended)
          {| message := lit "0101"; data := frame_dict frame_extended |}.
Proof.
  apply (trailing_bits_ignored frame_extended WheelSpeedSensor (lit "0101")).
  - unfold fields_in_range, in_width. cbn. lia.
  - reflexivity.
  - cbn. lia.
  - reflexivity.
  - constructor; [by left |]. constructor; [by right |].
    constructor; [by left |]. constructor; [by right | constructor].
  - vm_compute. lia.
Defined.

(** A read that asks for more bits than the message has left takes them
    all. *)
Lemma wp_read_field_short key (n : Z) (w : nat) (v : Z)
    (Q : unit -> CANDecoder -> Prop) E st :
  message st = to_bits w v ->
  (0 < w)%nat -> Z.of_nat w <= n -> in_width (Z.of_nat w) v ->
  Q tt {| message := []; data := <[key := PInt v]> (data st) |} ->
  wp (read_field key n) Q E st.
Proof.
  intros Hmsg Hw Hn Hv HQ. apply wp_read_field; [lia | |]; rewrite Hmsg.
  - rewrite slice_to_nonneg, slice_from_nonneg by lia.
    rewrite take_ge, drop_ge by (rewrite length_to_bits; lia).
    rewrite py_int_to_bits by done. by intros z [= <-].
  - rewrite slice_to_nonneg by lia.
    rewrite take_ge by (rewrite length_to_bits; lia).
    by rewrite py_int_to_bits.
Qed.

Lemma layout_head_tail (f : Frame) :
  layout f = layout_head f ++ to_bits 3 (interframe_space f).
Proof.
  unfold layout, layout_head.
  destruct (extension f) as [[srr ext] |]; by rewrite <- !app_assoc.
Qed.

Lemma layout_head_bits (f : Frame) : Forall is_bit (layout_head f).
Proof.
  pose proof (layout_bits f) as Hbits. rewrite layout_head_tail in Hbits.
  by apply Forall_app in Hbits as [Hbits _].
Qed.

(** The walk over a frame whose interframe space is written on [w] bits,
    [w] from 1 to 3. *)
Lemma walk_layout_short (f : Frame) (sensor : SensorType) (w : nat) (v : Z) :
  fields_in_range f ->
  1 <= data_length_code f ->
  ID_TO_SENSOR_MAP !! arbitration_id f = Some sensor ->
  (0 < w <= 3)%nat -> in_width (Z.of_nat w) v ->
  wp _decode_can_message
     (fun r _ =>
        r = (sensor, <["interframe_space" := PInt v]> (frame_dict f)))
     (fun _ _ => False)
     {| message := lit "0b" ++ layout_head f ++ to_bits w v; data := ∅ |}.
Proof.
  intros (Hsof & Hid & Hrtr & Hext & Hr0 & Hdlc & Hdata & Hcrc & Hcd
          & Hack & Had & Heof & Hifs) Hlen Hsensor Hw Hv.
  assert (Hwidth : data_length_code f * 8
                   = Z.of_nat (8 * Z.to_nat (data_length_code f))) by lia.
  assert (Hdata' : in_width (Z.of_nat (8 * Z.to_nat (data_length_code f)))
                     (data_field f)).
  { rewrite <- Hwidth. by rewrite Z.mul_comm. }
  unfold _decode_can_message, frame_dict, identifier_extension, layout_head.
  destruct (extension f) as [[srr ext] |].
  - destruct Hext as [Hsrr Hext]. rewrite <- !app_assoc.
    repeat wp_layout_step. rewrite Hwidth. repeat wp_layout_step.
    eapply (wp_read_field_short _ 3 w v);
      [reflexivity | lia | lia | done |]; wp_simpl.
    repeat wp_layout_step. reflexivity.
  - rewrite <- !app_assoc.
    repeat wp_layout_step. rewrite Hwidth. repeat wp_layout_step.
    eapply (wp_read_field_short _ 3 w v);
      [reflexivity | lia | lia | done |]; wp_simpl.
    repeat wp_layout_step. reflexivity.
Qed.

Lemma cut_last_bits (a b : str) :
  b <> [] -> slice_to (- Z.of_nat (length b)) (a ++ b) = a.
Proof.
  intros Hb. unfold slice_to.
  assert (0 < length b)%nat by (destruct b; [done | simpl; lia]).
  destruct (Z.leb_spec 0 (- Z.of_nat (length b))) as [Hle | _]; [lia |].
  rewrite Z.opp_involutive, Nat2Z.id, length_app.
  replace (length a + length b - length b)%nat with (length a) by lia.
  apply take_app_length.
Qed.

Lemma cut_last_one (a : str) (c : ascii) : slice_to (-1) (a ++ [c]) = a.
Proof. by apply (cut_last_bits a [c]). Qed.

Lemma cut_last_two (a : str) (c d : ascii) :
  slice_to (-2) (a ++ [c; d]) = a.
Proof. by apply (cut_last_bits a [c; d]). Qed.

(** X13. A frame cut short inside its interframe space is still decoded.
    For a frame as in the round trip, the layout without its last bit, and
    the layout without its last two bits, decode to the fields of the
    frame, with the interframe space read from the bits that are left:
    the value halved, and the value divided by four. *)
Theorem frame_cut_short_is_decoded (f : Frame) (sensor : SensorType) :
  fields_in_range f ->
  start_of_frame f = 1 ->
  1 <= data_length_code f ->
  ID_TO_SENSOR_MAP !! arbitration_id f = Some sensor ->
  (length (layout f) <= 128)%nat ->
  decode_full (MsgStr (slice_to (-1) (layout f)))
  = inr (sensor,
         <["interframe_space" := PInt (interframe_space f / 2)]>
           (frame_dict f))
  /\ decode_full (MsgStr (slice_to (-2) (layout f)))
     = inr (sensor,
            <["interframe_space" := PInt (interframe_space f / 4)]>
              (frame_dict f)).
Proof.
  intros Hrange Hsof Hdlc Hsensor Hlen.
  assert (Hifs : in_width 3 (interframe_space f)) by apply Hrange.
  unfold in_width in Hifs. change (2 ^ 3) with 8 in Hifs.
  assert (Hhead : exists t, layout_head f = "1"%char :: t /\ Forall is_bit t).
  { pose proof (layout_head_bits f) as Hbits.
    unfold layout_head in *. rewrite Hsof in *.
    change (to_bits 1 1) with ["1"%char] in *.
    eexists. split; [reflexivity |].
    by apply Forall_app in Hbits as [_ Hbits]. }
  destruct Hhead as (t & Hhead & Ht).
  assert (Hlen' : (length (layout_head f) + 3 <= 128)%nat).
  { rewrite layout_head_tail, length_app, length_to_bits in Hlen. lia. }
  assert (Hcut : forall (w : nat) (v : Z),
             (0 < w <= 3)%nat -> in_width (Z.of_nat w) v ->
             decode_full (MsgStr (layout_head f ++ to_bits w v))
             = inr (sensor, <["interframe_space" := PInt v]> (frame_dict f))).
  { intros w v Hw Hv.
    pose proof (wp_elim _ _ _ _
      (walk_layout_short f sensor w v Hrange Hdlc Hsensor Hw Hv)) as Hwalk.
    unfold decode_full, run, decode_can_message_full_dict.
    rewrite Hhead in *. rewrite <- app_comm_cons in *.
    rewrite init_leading_one.
    - destruct (_decode_can_message _) as [r st' | e st']; [by subst r | done].
    - apply Forall_app. split; [done | apply to_bits_is_bit].
    - rewrite length_cons, length_app, length_to_bits.
      rewrite length_cons in Hlen'. lia. }
  split.
  - rewrite layout_head_tail.
    change (to_bits 3 (interframe_space f))
      with (to_bits 2 (interframe_space f / 2)
            ++ [if Z.odd (interframe_space f) then "1"%char else "0"%char]).
    rewrite app_assoc.
    rewrite cut_last_one. apply Hcut; [lia |].
    unfold in_width. change (2 ^ Z.of_nat 2) with 4.
    split; [apply Z.div_pos; lia | apply Z.div_lt_upper_bound; lia].
  - rewrite layout_head_tail.
    change (to_bits 3 (interframe_space f))
      with (to_bits 1 (interframe_space f / 2 / 2)
            ++ [if Z.odd (interframe_space f / 2) then "1"%char else "0"%char;
                if Z.odd (interframe_space f) then "1"%char else "0"%char]).
    rewrite app_assoc, cut_last_two.
    rewrite Z.div_div by lia. apply Hcut; [lia |].
    unfold in_width. change (2 ^ Z.of_nat 1) with 2.
    split; [apply Z.div_pos; lia | apply Z.div_lt_upper_bound; lia].
Qed.

Lemma frame_cut_short_is_decoded_witness :
  decode_full (MsgStr (slice_to (-1) (layout frame_extended)))
  = inr (WheelSpeedSensor,
         <["interframe_space" := PInt (interframe_space frame_extended / 2)]>
           (frame_dict frame_extended))
  /\ decode_full (MsgStr (slice_to (-2) (layout frame_extended)))
     = inr (WheelSpeedSensor,
            <["interframe_space" := PInt (interframe_space frame_extended / 4)]>
              (frame_dict frame_extended)).
Proof.
  apply (frame_cut_short_is_decoded frame_extended WheelSpeedSensor).
  - unfold fields_in_range, in_width. cbn. lia.
  - reflexivity.
  - cbn. lia.
  - reflexivity.
  - vm_compute. lia.
Defined.

(** ** Messages with nothing to read *)

(** X14. Text made of zeros only, of any length, the empty text included,
    is never decoded: [decode] and [decode_full] raise [ValueError].  The
    empty text is refused by [int]; any other run of zeros becomes the one
    bit of ["0b0"], and the read of the arbitration id finds the message
    empty. *)
Theorem zero_text_raises_value_error (k : nat) :
  decode (MsgStr (replicate k "0"%char)) = inl ValueError
  /\ decode_full (MsgStr (replicate k "0"%char)) = inl ValueError.
Proof.
  destruct k as [| k]; [split; reflexivity |].
  assert (Hinit : init (MsgStr (replicate (S k) "0"%char))
                  = init (MsgInt 0)).
  { rewrite init_text, init_int.
    2: { pose proof digit_limit_above_2_128. simpl Z.abs. lia. }
    unfold init_body. rewrite to_binary_text_bits.
    - rewrite <- (app_nil_r (replicate (S k) "0"%char)).
      by rewrite bin_value_zeros.
    - done.
    - apply replicate_zero_bits. }
  unfold decode, decode_full.
  rewrite !(run_init _ _ _ Hinit). split; reflexivity.
Qed.

(** X15. A decoder whose message has two characters or fewer left has
    nothing to decode: the field walk raises [ValueError] at its first
    read, leaves the message empty and keeps the dictionary.  This is the
    state of a decoder after it has decoded a frame with no bits after
    it, so a second call on it fails. *)
Theorem walk_on_spent_message (st : CANDecoder) :
  (length (message st) <= 2)%nat ->
  _decode_can_message st
  = Raise ValueError {| message := []; data := data st |}
  /\ decode_can_message st
     = Raise ValueError {| message := []; data := data st |}.
Proof.
  intros Hlen.
  assert (Hdrop : slice_from 2 (message st) = []).
  { rewrite slice_from_nonneg by lia. apply drop_ge. simpl. lia. }
  assert (Hwalk : _decode_can_message st
                  = Raise ValueError {| message := []; data := data st |}).
  { unfold _decode_can_message, mbind, M_bind, get_message, set_message.
    rewrite Hdrop. reflexivity. }
  split; [exact Hwalk |].
  unfold decode_can_message, mbind, M_bind. by rewrite Hwalk.
Qed.

Lemma walk_on_spent_message_witness :
  _decode_can_message {| message := []; data := frame_dict frame_extended |}
  = Raise ValueError {| message := []; data := frame_dict frame_extended |}
  /\ decode_can_message {| message := []; data := frame_dict frame_extended |}
     = Raise ValueError
         {| message := []; data := frame_dict frame_extended |}.
Proof.
  apply (walk_on_spent_message
           {| message := []; data := frame_dict frame_extended |}).
  simpl. lia.
Defined.

(** ** Frames with the start of frame bit 0 *)





